(** * create_table_from_sheet: row normalisation, coercion and statement
      generation

    A shallow embedding of [src/create_table_from_sheet.py].  Python text is
    a sequence of Unicode code points, a dict is an insertion-ordered
    association list, [None] is a constructor of the value type, and an
    exception or a line printed on [sys.stderr] is part of the outcome of a
    computation. *)

From Stdlib Require Import String Ascii DecimalString.
From Stdlib Require Import List NArith ZArith Lia Bool.
Import ListNotations.

Set Implicit Arguments.

(** ** Python text *)

(** A [str] is a sequence of code points. *)
Definition char : Type := N.
Definition pystr : Type := list char.

(** [u "..."] is the text of an ASCII literal of the source. *)
Definition u (s : string) : pystr := map N_of_ascii (list_ascii_of_string s).

(** Characters the source writes that a literal here cannot hold. *)
Definition nl : pystr := [10%N].       (* newline *)
Definition dquote : pystr := [34%N].   (* double quote *)
Definition bslash : pystr := [92%N].   (* backslash *)

Definition str_eqb (a b : pystr) : bool :=
  if list_eq_dec N.eq_dec a b then true else false.

(** Truth value of a [str]: only the empty string is false. *)
Definition truthy (s : pystr) : bool :=
  match s with [] => false | _ :: _ => true end.

(** [str.isspace] on one code point (CPython's [_PyUnicode_IsWhitespace]). *)
Definition isspace (c : char) : bool :=
  ((9 <=? c) && (c <=? 13) || (28 <=? c) && (c <=? 32)
   || (c =? 133) || (c =? 160) || (c =? 5760)
   || (8192 <=? c) && (c <=? 8202)
   || (c =? 8232) || (c =? 8233) || (c =? 8239) || (c =? 8287)
   || (c =? 12288))%N.

Fixpoint lstrip (s : pystr) : pystr :=
  match s with
  | [] => []
  | c :: s' => if isspace c then lstrip s' else s
  end.

Definition rstrip (s : pystr) : pystr := rev (lstrip (rev s)).

(** [s.strip()] with no argument. *)
Definition strip (s : pystr) : pystr := rstrip (lstrip s).

(** [any(...)] over the truth values of a generator. *)
Definition any {A : Type} (f : A -> bool) (l : list A) : bool := existsb f l.

(** ** RowShaper *)

(** [chop_at_blank(row)]: the loop appends items until the first item equal
    to [''], where it breaks. *)
Fixpoint chop_at_blank (row : list pystr) : list pystr :=
  match row with
  | [] => []
  | item :: row' =>
      if str_eqb item [] then [] else item :: chop_at_blank row'
  end.

(** [drop_empty_rows(rows)]:
    [[row for row in rows if any(val.strip() for val in row)]]. *)
Definition drop_empty_rows (rows : list (list pystr)) : list (list pystr) :=
  filter (fun row => any (fun val => truthy (strip val)) row) rows.

(** ** Outcomes: exceptions and the error stream *)

Inductive exn : Type :=
| ValueError      (* int(), float() and dateutil on text they cannot parse *)
| AttributeError  (* a method looked up on None *)
| IndexError      (* rows[0] of a worksheet without rows *)
| OverflowError.  (* dateutil on a number too large for a date field *)

Inductive outcome (A : Type) : Type :=
| Return (a : A)
| Raise (e : exn).
Arguments Raise {A} e.

(** A computation yields the text it wrote to [sys.stderr], one element per
    [print] call, and then returns or raises. *)
Definition M (A : Type) : Type := (list pystr * outcome A)%type.

Definition ret {A} (a : A) : M A := ([], Return a).
Definition raise {A} (e : exn) : M A := ([], Raise e).
Definition bind {A B} (m : M A) (f : A -> M B) : M B :=
  match m with
  | (w, Return a) => let (w', r) := f a in (w ++ w', r)
  | (w, Raise e) => (w, Raise e)
  end.

Notation "x <- m ;; k" := (bind m (fun x => k))
  (at level 61, m at next level, right associativity).

(** [print(msg, file=sys.stderr)]. *)
Definition print_stderr (msg : pystr) : M unit := ([msg ++ nl], Return tt).

(** [f(x)] for a library function that raises [ValueError] where the model
    gives [None]. *)
Definition or_value_error {A} (r : option A) : M A :=
  match r with Some a => ret a | None => raise ValueError end.

(** ** Dicts *)

(** A dict keeps its keys in insertion order; assigning to a key that is
    present replaces the value in place. *)
Definition dict (V : Type) : Type := list (pystr * V).

Fixpoint dict_get {V} (d : dict V) (k : pystr) : option V :=
  match d with
  | [] => None
  | (k', v) :: d' => if str_eqb k' k then Some v else dict_get d' k
  end.

Fixpoint dict_set {V} (d : dict V) (k : pystr) (v : V) : dict V :=
  match d with
  | [] => [(k, v)]
  | (k', v') :: d' =>
      if str_eqb k' k then (k', v) :: d' else (k', v') :: dict_set d' k v
  end.

Definition zip {A B} (l : list A) (l' : list B) : list (A * B) := combine l l'.

(** [dict(pairs)]: the pairs are assigned one after the other. *)
Definition dict_of {V} (pairs : list (pystr * V)) : dict V :=
  fold_left (fun d kv => dict_set d (fst kv) (snd kv)) pairs [].

Definition keys {V} (d : dict V) : list pystr := map fst d.

(** ** The Python runtime the script relies on

    Library functions whose tables or algorithms are not part of the
    repository.  [float] gives [None] where the library raises, which is
    always [ValueError]; the date parser says which exception it raises
    ([ValueError] for text it cannot read, [OverflowError] for a number too
    large for a date field).  The limit on the digits of an integer read
    from text is a setting of the interpreter.  The laws say what the claims
    below rely on: lower-casing on ASCII text, where Python's behaviour is a
    matter of 26 code points, and the characters a float is written with. *)

Definition is_ascii (c : char) : bool := (c <? 128)%N.

Definition ascii_lower (c : char) : char :=
  if ((65 <=? c) && (c <=? 90))%N then (c + 32)%N else c.

Definition ascii_digit (c : char) : option N :=
  if ((48 <=? c) && (c <=? 57))%N then Some (c - 48)%N else None.

(** The characters of the text of a number: letters, digits, the point and
    the signs. *)
Definition plain_char (c : char) : bool :=
  ((48 <=? c) && (c <=? 57) || (65 <=? c) && (c <=? 90)
   || (97 <=? c) && (c <=? 122) || (c =? 46) || (c =? 43) || (c =? 45))%N.

Class PyRuntime : Type := {
  pyfloat : Type;                              (* float *)
  datetime : Type;                             (* datetime.datetime *)
  str_lower : pystr -> pystr;                  (* str.lower *)
  decimal_value : char -> option N;            (* unicodedata.decimal *)
  float_of_str : pystr -> option pyfloat;      (* float(s) *)
  float_repr : pyfloat -> pystr;               (* float.__repr__ *)
  dateutil_parse : pystr -> outcome datetime;  (* dateutil.parser.parse *)
  int_max_str_digits : nat;          (* sys.get_int_max_str_digits() *)
  strftime : datetime -> pystr -> pystr;       (* datetime.strftime *)
  repr : pystr -> pystr;                       (* repr of a str *)
  str_lower_ascii :
    forall s, forallb is_ascii s = true -> str_lower s = map ascii_lower s;
  float_repr_plain :
    forall f, forallb plain_char (float_repr f) = true
}.

(** ** HeaderKeyNormalizer *)

(** The class [[a-z0-9_]]. *)
Definition key_char (c : char) : bool :=
  ((97 <=? c) && (c <=? 122) || (48 <=? c) && (c <=? 57) || (c =? 95))%N.

(** [re.sub(repl, s)] for a pattern [[cls]+]: the scanner replaces each
    match, which is greedy and so runs to the last consecutive character of
    the class; [in_match] tells that the previous character belongs to the
    match being replaced. *)
Fixpoint re_sub_plus (cls : char -> bool) (repl : pystr) (in_match : bool)
  (s : pystr) : pystr :=
  match s with
  | [] => []
  | c :: s' =>
      if cls c
      then (if in_match then [] else repl) ++ re_sub_plus cls repl true s'
      else c :: re_sub_plus cls repl false s'
  end.

(** [re.sub(repl, s)] for a pattern [[cls]] of one character. *)
Definition re_sub_class (cls : char -> bool) (repl : pystr) (s : pystr)
  : pystr :=
  flat_map (fun c => if cls c then repl else [c]) s.

Section Runtime.
Context {rt : PyRuntime}.

(** [headers_to_keys(headers)]: the pattern is [[^a-z0-9_]+]. *)
Definition headers_to_keys (headers : list pystr) : list pystr :=
  map (fun header =>
         re_sub_plus (fun c => negb (key_char c)) (u "_") false
           (str_lower header))
      headers.

(** ** Coercer *)

(** Values of a record after coercion. *)
Inductive pyval : Type :=
| VStr (s : pystr)
| VInt (z : Z)
| VFloat (f : pyfloat)
| VNone.

(** The class [[,$]]. *)
Definition comma_dollar (c : char) : bool := ((c =? 44) || (c =? 36))%N.

(** *** [int(s)] on a [str]

    CPython first maps the text to ASCII (code points below 127 are kept, a
    Unicode space becomes a blank, a Unicode decimal digit its ASCII digit,
    anything else [?]), then reads: blanks, a sign, digits with single
    underscores between them, blanks.  A text of more digits than the
    interpreter's limit (4300 unless it is set otherwise; 0 lifts it; texts
    of up to 640 digits are never refused) is an error. *)

Definition to_ascii_decimal (s : pystr) : pystr :=
  map (fun ch =>
         if (ch <? 127)%N then ch
         else if isspace ch then 32%N
         else match decimal_value ch with
              | Some d => (48 + d)%N
              | None => 63%N
              end) s.

(** C's [Py_ISSPACE]. *)
Definition c_isspace (c : char) : bool :=
  ((9 <=? c) && (c <=? 13) || (c =? 32))%N.

Fixpoint skip_spaces (s : pystr) : pystr :=
  match s with
  | [] => []
  | c :: s' => if c_isspace c then skip_spaces s' else s
  end.

(** The digit loop: [prev] is the character read before, [acc] the value so
    far.  Two underscores in a row and a final underscore are errors. *)
Fixpoint scan_digits (acc : Z) (prev : char) (s : pystr)
  : option (Z * pystr) :=
  match s with
  | [] => if (prev =? 95)%N then None else Some (acc, [])
  | c :: s' =>
      if (c =? 95)%N then
        if (prev =? 95)%N then None else scan_digits acc c s'
      else match ascii_digit c with
           | Some d => scan_digits (10 * acc + Z.of_N d) c s'
           | None => if (prev =? 95)%N then None else Some (acc, s)
           end
  end.

(** The digits that the digit loop counts: those of the leading run of
    digits and underscores. *)
Fixpoint count_digits (s : pystr) : nat :=
  match s with
  | [] => 0
  | c :: s' =>
      if (c =? 95)%N then count_digits s'
      else match ascii_digit c with
           | Some _ => S (count_digits s')
           | None => 0
           end
  end.

(** The test on the number of digits, as CPython orders it. *)
Definition digits_capped (digits : nat) : bool :=
  if 640 <? digits
  then (0 <? int_max_str_digits) && (int_max_str_digits <? digits)
  else false.

Definition int_of_str (s : pystr) : option Z :=
  let body := skip_spaces (to_ascii_decimal s) in
  let '(sign, digits) :=
    match body with
    | 43%N :: r => (1%Z, r)
    | 45%N :: r => ((-1)%Z, r)
    | _ => (1%Z, body)
    end in
  match digits with
  | [] => None
  | c :: _ =>
      match ascii_digit c with
      | None => None
      | Some _ =>
          match scan_digits 0 0%N digits with
          | Some (v, rest) =>
              if digits_capped (count_digits digits) then None
              else
                match skip_spaces rest with
                | [] => Some (sign * v)%Z
                | _ :: _ => None
                end
          | None => None
          end
      end
  end.

(** [target in (a, b, ...)] for a target that may be [None]. *)
Definition target_in (target : option pystr) (tags : list pystr) : bool :=
  match target with
  | Some t => existsb (str_eqb t) tags
  | None => false
  end.

(** [val.strftime(fmt)] where [val] is a datetime or [None]. *)
Definition call_strftime (val : option datetime) (fmt : pystr) : M pystr :=
  match val with
  | Some d => ret (strftime d fmt)
  | None => raise AttributeError
  end.

(** [dateutil.parser.parse(val) if val.strip() else None]. *)
Definition parse_or_none (val : pystr) : M (option datetime) :=
  if truthy (strip val)
  then d <- (([], dateutil_parse val) : M datetime) ;; ret (Some d)
  else ret None.

(** The body of the loop of [apply_coercions_1]: the value stored under the
    key, from the key's [target] and the cell [val]. *)
Definition coerce_value (target : option pystr) (val : pystr) : M pyval :=
  if target_in target [u "int"; u "integer"] then
    let val := re_sub_class comma_dollar [] val in
    if truthy val
    then z <- or_value_error (int_of_str val) ;; ret (VInt z)
    else ret VNone
  else if target_in target [u "float"] then
    let val := re_sub_class comma_dollar [] val in
    if truthy val
    then f <- or_value_error (float_of_str val) ;; ret (VFloat f)
    else ret VNone
  else if target_in target [u "date"] then
    val <- parse_or_none val ;;
    val <- call_strftime val (u "%Y-%m-%d") ;;
    ret (VStr val)
  else if target_in target [u "datetime"; u "timestamp"] then
    val <- parse_or_none val ;;
    val <- call_strftime val (u "%Y-%m-%d %H:%M:%S") ;;
    ret (VStr val)
  else match target with
       | Some t =>
           _ <- print_stderr (u "Unknown coercion target " ++ repr t) ;;
           ret (VStr val)
       | None => ret (VStr val)
       end.

(** A coercion specification as [json.loads] gives it: a tag, or [None] for
    a JSON null. *)
Definition coercion_spec : Type := dict (option pystr).

(** [coercions.get(key)]. *)
Definition coercions_get (coercions : coercion_spec) (key : pystr)
  : option pystr :=
  match dict_get coercions key with
  | Some target => target
  | None => None
  end.

(** The loop of [apply_coercions_1] over [obj.items()], [result] being the
    dict built so far. *)
Fixpoint coerce_items (items : list (pystr * pystr))
  (coercions : coercion_spec) (result : dict pyval) : M (dict pyval) :=
  match items with
  | [] => ret result
  | (key, val) :: items' =>
      v <- coerce_value (coercions_get coercions key) val ;;
      coerce_items items' coercions (dict_set result key v)
  end.

Definition apply_coercions_1 (obj : dict pystr) (coercions : coercion_spec)
  : M (dict pyval) :=
  coerce_items obj coercions [].

(** [[apply_coercions_1(obj, coercions) for obj in data]]. *)
Fixpoint apply_coercions (data : list (dict pystr))
  (coercions : coercion_spec) : M (list (dict pyval)) :=
  match data with
  | [] => ret []
  | obj :: data' =>
      r <- apply_coercions_1 obj coercions ;;
      rs <- apply_coercions data' coercions ;;
      ret (r :: rs)
  end.

(** ** RecordBuilder *)

(** What the spreadsheet client hands over: the title of the worksheet and
    [list(worksheet)], its rows of cells. *)
Record worksheet : Type := {
  ws_title : pystr;
  ws_rows : list (list pystr)
}.

Record raw_payload : Type := {
  raw_title : pystr;
  raw_headers : list pystr;
  raw_data : list (list pystr)
}.

Record payload : Type := {
  title : pystr;
  data : list (dict pyval)
}.

(** [_read_worksheet] from the point where the worksheet has been fetched:
    [rows[0]] raises on a worksheet without rows. *)
Definition _read_worksheet (ws : worksheet) : M raw_payload :=
  match ws_rows ws with
  | [] => raise IndexError
  | row0 :: rows' =>
      ret {| raw_title := ws_title ws;
             raw_headers := chop_at_blank row0;
             raw_data := drop_empty_rows rows' |}
  end.

(** Truth value of the [coercions] argument: [None] and the empty dict are
    false. *)
Definition coercions_truthy (coercions : option coercion_spec) : bool :=
  match coercions with
  | Some (_ :: _) => true
  | _ => false
  end.

(** A record that went through no coercion holds its cells as they are. *)
Definition uncoerced (obj : dict pystr) : dict pyval :=
  map (fun kv => (fst kv, VStr (snd kv))) obj.

Definition read_worksheet (ws : worksheet) (coercions : option coercion_spec)
  : M payload :=
  raw <- _read_worksheet ws ;;
  let keys := headers_to_keys (raw_headers raw) in
  let objects := map (fun row => dict_of (zip keys row)) (raw_data raw) in
  objects <-
    match coercions with
    | Some c =>
        if coercions_truthy coercions then apply_coercions objects c
        else ret (map uncoerced objects)
    | None => ret (map uncoerced objects)
    end ;;
  ret {| title := raw_title raw; data := objects |}.

(** ** StatementBuilder *)

(** *** [json.dumps] with its default settings *)

Definition hex_digit (n : N) : char :=
  if (n <? 10)%N then (48 + n)%N else (87 + n)%N.

(** The escape of a code point below 65536: a backslash, the letter u and
    four lower-case hexadecimal digits. *)
Definition u_escape (n : N) : pystr :=
  [92%N; 117%N;
   hex_digit (N.shiftr n 12 mod 16); hex_digit (N.shiftr n 8 mod 16);
   hex_digit (N.shiftr n 4 mod 16); hex_digit (n mod 16)].

(** The replacement of one character by [py_encode_basestring_ascii]:
    [ESCAPE_ASCII] matches a backslash, a double quote and every character
    outside the range from the blank to the tilde. *)
Definition escape_char (c : char) : pystr :=
  if (c =? 92)%N then [92%N; 92%N]
  else if (c =? 34)%N then [92%N; 34%N]
  else if ((32 <=? c) && (c <=? 126))%N then [c]
  else if (c =? 8)%N then [92%N; 98%N]
  else if (c =? 12)%N then [92%N; 102%N]
  else if (c =? 10)%N then [92%N; 110%N]
  else if (c =? 13)%N then [92%N; 114%N]
  else if (c =? 9)%N then [92%N; 116%N]
  else if (c <? 65536)%N then u_escape c
  else
    let n := (c - 65536)%N in
    u_escape (N.lor 55296 (N.land (N.shiftr n 10) 1023))
    ++ u_escape (N.lor 56320 (N.land n 1023)).

Definition json_escape (s : pystr) : pystr := flat_map escape_char s.

Definition json_string (s : pystr) : pystr :=
  dquote ++ json_escape s ++ dquote.

(** [int.__repr__]. *)
Definition int_repr (z : Z) : pystr := u (NilZero.string_of_int (Z.to_int z)).

Definition json_value (v : pyval) : pystr :=
  match v with
  | VStr s => json_string s
  | VInt z => int_repr z
  | VFloat f => float_repr f
  | VNone => u "null"
  end.

(** [sep.join(items)]. *)
Fixpoint join (sep : pystr) (items : list pystr) : pystr :=
  match items with
  | [] => []
  | [x] => x
  | x :: items' => x ++ sep ++ join sep items'
  end.

(** [json.dumps(obj)] for a record. *)
Definition json_dumps (obj : dict pyval) : pystr :=
  u "{"
  ++ join (u ", ")
       (map (fun kv => json_string (fst kv) ++ u ": " ++ json_value (snd kv))
          obj)
  ++ u "}".

(** *** The statements *)

Definition build_create_table (schema table : pystr) : pystr :=
  u "CREATE OR REPLACE TABLE " ++ schema ++ u "." ++ table ++ u " (" ++ nl
  ++ u "        source string," ++ nl
  ++ u "        imported_at timestamp_tz," ++ nl
  ++ u "        data variant" ++ nl
  ++ u "    );" ++ nl
  ++ u "    ".

(** The three lines written before the loop. *)
Definition insert_header (schema table : pystr) : pystr :=
  u "INSERT INTO " ++ schema ++ u "." ++ table ++ nl
  ++ u "SELECT column1, column2, parse_json(column3)" ++ nl
  ++ u "FROM VALUES" ++ nl.

(** What one turn of the loop writes for [obj] at index [i]. *)
Definition insert_row (title : pystr) (count : Z) (i : Z) (obj : dict pyval)
  : pystr :=
  u "('" ++ title ++ u "', current_timestamp, '" ++ json_dumps obj ++ u "')"
  ++ (if negb (i =? count - 1)%Z then u "," else [])
  ++ nl.

(** The loop over [enumerate(data)], from index [i] on. *)
Fixpoint insert_rows (title : pystr) (count : Z) (i : Z)
  (data : list (dict pyval)) : pystr :=
  match data with
  | [] => []
  | obj :: data' =>
      insert_row title count i obj ++ insert_rows title count (i + 1) data'
  end.

Definition build_insert_rows (schema table : pystr) (p : payload) : pystr :=
  insert_header schema table
  ++ insert_rows (title p) (Z.of_nat (length (data p))) 0 (data p).

End Runtime.

(** ** LoadOrchestrator *)

(** What a run does to the outside, in the order it does it. *)
Inductive event : Type :=
| Stderr (text : pystr)    (* text written on [sys.stderr] *)
| Stdout (text : pystr)    (* text written on [sys.stdout] *)
| Connect                  (* [snowflake.connector.connect] is called *)
| Execute (stmt : pystr)   (* [cursor.execute(statement)] *)
| Close.                   (* leaving the [with] block of the connection *)

(** How a run ends when it does not return. *)
Inductive failure : Type :=
| ScriptError (e : exn)    (* an exception of the script's own code *)
| ConfigError              (* [read_db_config]: [open] or [json.load] raised *)
| SheetError               (* the spreadsheet client raised *)
| WarehouseError.          (* [connect] or [execute] raised *)

(** The answers of the collaborators of one run. *)
Record world : Type := {
  config_readable : bool;            (* [read_db_config] returns *)
  fetched : option worksheet;        (* what the spreadsheet client gives *)
  connects : bool;                   (* [connect] returns *)
  executes : pystr -> bool           (* [execute] returns on this statement *)
}.

(** The loop over the statements inside the [with] block. *)
Fixpoint run_statements (w : world) (verbose dry_run : bool)
  (statements : list pystr) : list event * option failure :=
  match statements with
  | [] => ([], None)
  | statement :: statements' =>
      let printed := if verbose then [Stdout (statement ++ nl)] else [] in
      if negb dry_run then
        if executes w statement then
          let (ev, r) := run_statements w verbose dry_run statements' in
          (printed ++ Execute statement :: ev, r)
        else (printed ++ [Execute statement], Some WarehouseError)
      else
        let (ev, r) := run_statements w verbose dry_run statements' in
        (printed ++ ev, r)
  end.

Section Orchestrator.
Context {rt : PyRuntime}.

(** [load_sheet], the coercions being parsed already: the configuration is
    read, the worksheet read and shaped, the two statements built, and only
    then the connection opened and the statements run. *)
Definition load_sheet (schema table : pystr) (w : world)
  (coercions : option coercion_spec) (verbose dry_run : bool)
  : list event * option failure :=
  if negb (config_readable w) then ([], Some ConfigError)
  else
    match fetched w with
    | None => ([], Some SheetError)
    | Some ws =>
        match read_worksheet ws coercions with
        | (log, Raise e) => (map Stderr log, Some (ScriptError e))
        | (log, Return payload) =>
            let create_table := build_create_table schema table in
            let insert_rows := build_insert_rows schema table payload in
            if negb (connects w) then (map Stderr log, Some WarehouseError)
            else
              let (ev, r) :=
                run_statements w verbose dry_run [create_table; insert_rows] in
              (map Stderr log ++ Connect :: ev ++ [Close], r)
        end
    end.

End Orchestrator.

(** A runtime that decides ASCII text only: lower-casing and digits are
    Python's on ASCII, [repr] is Python's on text without quotes, backslashes
    and control characters, the parsers of floats and dates reject every input,
    there is one float, and the limit on the digits of an integer is the
    default one. *)
Definition ascii_runtime : PyRuntime.
Proof.
  refine
    {| pyfloat := unit;
       datetime := pystr;
       str_lower := map ascii_lower;
       decimal_value := fun c => if is_ascii c then ascii_digit c else None;
       float_of_str := fun _ => None;
       float_repr := fun _ => u "0.0";
       dateutil_parse := fun _ => Raise ValueError;
       int_max_str_digits := 4300;
       strftime := fun d _ => d;
       repr := fun s => u "'" ++ s ++ u "'";
       str_lower_ascii := _;
       float_repr_plain := _ |}.
  - intros s _. reflexivity.
  - intros f. reflexivity.
Defined.

(** ** The words of the specification *)

(** "Every maximal run of characters [of a class]": the text cut into its
    maximal runs of characters inside and outside the class, each run with
    the side it is on. *)
Fixpoint group_runs (cls : char -> bool) (s : pystr) : list (bool * pystr) :=
  match s with
  | [] => []
  | c :: s' =>
      match group_runs cls s' with
      | (b, run) :: runs =>
          if Bool.eqb b (cls c) then (b, c :: run) :: runs
          else (cls c, [c]) :: (b, run) :: runs
      | [] => [(cls c, [c])]
      end
  end.

(** "... replaced by a single underscore": each run of the class gives way
    to [repl], the other runs stay. *)
Definition replace_runs (cls : char -> bool) (repl : pystr) (s : pystr)
  : pystr :=
  flat_map (fun r : bool * pystr => if fst r then repl else snd r)
    (group_runs cls s).

(** No two neighbouring runs are on the same side. *)
Fixpoint alternating (runs : list (bool * pystr)) : Prop :=
  match runs with
  | r :: ((r' :: _) as runs') => fst r <> fst r' /\ alternating runs'
  | _ => True
  end.

(** "Retains a row iff ..., in original order and original content": the
    output goes through the input front to back, keeping each item that
    satisfies [P] as it is and skipping each that does not. *)
Inductive retains {A : Type} (P : A -> Prop) : list A -> list A -> Prop :=
| retains_nil : retains P [] []
| retains_keep x l out : P x -> retains P l out -> retains P (x :: l) (x :: out)
| retains_skip x l out : ~ P x -> retains P l out -> retains P (x :: l) out.

(** "At least one of its cells has non-whitespace content after trimming". *)
Definition has_content (row : list pystr) : Prop :=
  exists cell, In cell row /\ strip cell <> [].

(** "Zipping the keys with the row's cells positionally, stopping at the
    shorter sequence": the record of the row holds the cell [cell] under the
    key [k] when a position that both the keys and the row have carries [k]
    and [cell], and no later position that both have carries [k]. *)
Definition zipped_cell (ks row : list pystr) (k cell : pystr) : Prop :=
  exists i,
    nth_error ks i = Some k /\ nth_error row i = Some cell
    /\ forall j, i < j -> j < length row -> nth_error ks j <> Some k.

(** "A valid base-10 integer literal", as the documentation of [int] has
    it: decimal digits, single underscores allowed between two digits, a
    sign allowed in front of them with nothing in between, and blanks
    allowed around the whole.
    [digit_groups body ds]: the text [body] is made of the digits [ds], in
    this order, with single underscores between some of them. *)
Inductive digit_groups : pystr -> list N -> Prop :=
| groups_one d :
    (d < 10)%N -> digit_groups [(48 + d)%N] [d]
| groups_digit d body ds :
    (d < 10)%N -> digit_groups body ds ->
    digit_groups ((48 + d)%N :: body) (d :: ds)
| groups_underscore d body ds :
    (d < 10)%N -> digit_groups body ds ->
    digit_groups ((48 + d)%N :: 95%N :: body) (d :: ds).

(** The number that digits denote in base 10, most significant first,
    behind the digits already worth [acc]. *)
Definition base10_from (acc : Z) (ds : list N) : Z :=
  fold_left (fun a d => (10 * a + Z.of_N d)%Z) ds acc.

Definition base10 (ds : list N) : Z := base10_from 0 ds.

(** [s] is a valid literal of the integer [z], written with the digits
    [ds]. *)
Definition int_literal_with {rt : PyRuntime} (s : pystr) (z : Z)
  (ds : list N) : Prop :=
  exists lead sign body trail,
    to_ascii_decimal s = lead ++ sign ++ body ++ trail
    /\ forallb c_isspace lead = true
    /\ forallb c_isspace trail = true
    /\ (sign = [] /\ z = base10 ds
        \/ sign = [43%N] /\ z = base10 ds
        \/ sign = [45%N] /\ z = (- base10 ds)%Z)
    /\ digit_groups body ds.

(** [s] is a valid literal of the integer [z]. *)
Definition int_literal {rt : PyRuntime} (s : pystr) (z : Z) : Prop :=
  exists ds, int_literal_with s z ds.

(** A literal of [n] digits is beyond the interpreter's limit on the
    conversion of text to integers: the limit is looked at only above 640
    digits, and a limit of 0 switches it off. *)
Definition over_digit_limit {rt : PyRuntime} (n : nat) : Prop :=
  640 < n /\ 0 < int_max_str_digits /\ int_max_str_digits < n.

(** [s] is a valid literal of the integer [z] with no more digits than the
    limit allows. *)
Definition int_literal_in_limit {rt : PyRuntime} (s : pystr) (z : Z) : Prop :=
  exists ds, int_literal_with s z ds /\ ~ over_digit_limit (length ds).

(** Where the digit loop stops: at the end of the text, or in front of a
    character that is neither a digit nor an underscore. *)
Definition scan_stops (rest : pystr) : Prop :=
  match rest with
  | [] => True
  | c :: _ => c <> 95%N /\ ascii_digit c = None
  end.

(** What [int] does behind the blanks and the sign. *)
Definition read_unsigned {rt : PyRuntime} (sign : Z) (digits : pystr)
  : option Z :=
  match digits with
  | [] => None
  | c :: _ =>
      match ascii_digit c with
      | None => None
      | Some _ =>
          match scan_digits 0 0%N digits with
          | Some (v, rest) =>
              if digits_capped (count_digits digits) then None
              else
                match skip_spaces rest with
                | [] => Some (sign * v)%Z
                | _ :: _ => None
                end
          | None => None
          end
      end
  end.

(** What a backslash and the character [d] behind it stand for in a string
    constant of the SQL dialect: the two quotes and the backslash
    themselves, and the control characters that have a letter of their own.
    [None] for any other character: the escapes by number are not
    modelled. *)
Definition sql_escape (d : char) : option char :=
  if (d =? 39)%N then Some 39%N
  else if (d =? 34)%N then Some 34%N
  else if (d =? 92)%N then Some 92%N
  else if (d =? 98)%N then Some 8%N
  else if (d =? 102)%N then Some 12%N
  else if (d =? 110)%N then Some 10%N
  else if (d =? 114)%N then Some 13%N
  else if (d =? 116)%N then Some 9%N
  else None.

(** The string literals of a statement, as a SQL reader delimits them, each
    as the text it denotes: a literal opens at a single quote and closes at
    the next single quote that is neither doubled nor behind a backslash; a
    doubled quote denotes one quote, a backslash and the character behind it
    what [sql_escape] says.  [None] when the text ends inside a literal or
    has an escape that is not modelled. *)
Fixpoint sql_literals_from (inside : bool) (cur : pystr) (s : pystr)
  : option (list pystr) :=
  match s with
  | [] => if inside then None else Some []
  | c :: s' =>
      if inside then
        if (c =? 92)%N then
          match s' with
          | [] => None
          | d :: s'' =>
              match sql_escape d with
              | Some x => sql_literals_from true (cur ++ [x]) s''
              | None => None
              end
          end
        else if (c =? 39)%N then
          match s' with
          | 39%N :: s'' => sql_literals_from true (cur ++ [c]) s''
          | _ => option_map (cons cur) (sql_literals_from false [] s')
          end
        else sql_literals_from true (cur ++ [c]) s'
      else if (c =? 39)%N then sql_literals_from true [] s'
      else sql_literals_from false [] s'
  end.

Definition sql_literals (stmt : pystr) : option (list pystr) :=
  sql_literals_from false [] stmt.

(** Reading a JSON string literal from just after its opening quote: the
    text that follows the closing quote, the first double quote that is not
    behind a backslash. *)
Fixpoint json_string_rest (s : pystr) : option pystr :=
  match s with
  | [] => None
  | c :: s' =>
      if (c =? 34)%N then Some s'
      else if (c =? 92)%N then
        match s' with
        | [] => None
        | _ :: s'' => json_string_rest s''
        end
      else json_string_rest s'
  end.

(** The text [t] can stand inside a literal delimited by [q]: every [q] in
    it is behind a backslash, and no backslash is left without the character
    it escapes. *)
Fixpoint escapes_closed (q : char) (t : pystr) : bool :=
  match t with
  | [] => true
  | c :: t' =>
      if (c =? 92)%N then
        match t' with
        | [] => false
        | _ :: t'' => escapes_closed q t''
        end
      else if (c =? q)%N then false
      else escapes_closed q t'
  end.

(** "No cell value can break out of the string literal": the literals of the
    statement denote, row by row, the title and the JSON text of the
    record. *)
Definition literals_intact {rt : PyRuntime} (schema table : pystr)
  (p : payload) : Prop :=
  sql_literals (build_insert_rows schema table p) =
  Some (flat_map (fun obj => [title p; json_dumps obj]) (data p)).

(** The range from the blank to the tilde. *)
Definition printable (c : char) : bool := ((32 <=? c) && (c <=? 126))%N.

(** A character that stands for itself in a string constant of the SQL
    dialect: neither the single quote nor the backslash. *)
Definition lit_char (c : char) : bool :=
  (negb (c =? 39) && negb (c =? 92))%N.

(** A character that stands for itself in a string constant of the SQL
    dialect also after [json.dumps]: printable ASCII other than the two
    quotes and the backslash. *)
Definition sql_plain_char (c : char) : bool :=
  (printable c && negb (c =? 39) && negb (c =? 34) && negb (c =? 92))%N.

Fixpoint ends_with (suffix s : pystr) : bool :=
  if str_eqb s suffix then true
  else match s with
       | [] => false
       | _ :: s' => ends_with suffix s'
       end.

(** The zero-row policy the specification asks for: no statement at all, or
    a statement that does not stop at the keyword of a row list without
    rows. *)
Definition zero_rows_handled (stmt : pystr) : Prop :=
  stmt = [] \/ ends_with (u "VALUES") (rstrip stmt) = false.

(** Reading JSON string text back, one character: the value of a
    hexadecimal digit, of four of them, and the first character that the
    text of a JSON string stands for, with the text behind it.  A high
    surrogate followed by the escape of a low surrogate stands for one
    character beyond the basic plane. *)
Definition unhex (c : char) : option N :=
  if ((48 <=? c) && (c <=? 57))%N then Some (c - 48)%N
  else if ((97 <=? c) && (c <=? 102))%N then Some (c - 87)%N
  else if ((65 <=? c) && (c <=? 70))%N then Some (c - 55)%N
  else None.

Definition unhex4 (h1 h2 h3 h4 : char) : option N :=
  match unhex h1, unhex h2, unhex h3, unhex h4 with
  | Some a, Some b, Some c, Some d => Some (4096 * a + 256 * b + 16 * c + d)%N
  | _, _, _, _ => None
  end.

Definition json_first_char (t : pystr) : option (char * pystr) :=
  match t with
  | [] => None
  | c :: t1 =>
      if (c =? 92)%N then
        match t1 with
        | [] => None
        | d :: t2 =>
            if (d =? 117)%N then
              match t2 with
              | h1 :: h2 :: h3 :: h4 :: t3 =>
                  match unhex4 h1 h2 h3 h4 with
                  | None => None
                  | Some n =>
                      if ((55296 <=? n) && (n <? 56320))%N then
                        match t3 with
                        | b :: x :: g1 :: g2 :: g3 :: g4 :: t4 =>
                            match unhex4 g1 g2 g3 g4 with
                            | Some m =>
                                if ((b =? 92) && (x =? 117)
                                    && (56320 <=? m) && (m <? 57344))%N
                                then Some ((65536 + (n - 55296) * 1024
                                            + (m - 56320))%N, t4)
                                else Some (n, t3)
                            | None => Some (n, t3)
                            end
                        | _ => Some (n, t3)
                        end
                      else Some (n, t3)
                  end
              | _ => None
              end
            else if (d =? 34)%N then Some (34%N, t2)
            else if (d =? 92)%N then Some (92%N, t2)
            else if (d =? 47)%N then Some (47%N, t2)
            else if (d =? 98)%N then Some (8%N, t2)
            else if (d =? 102)%N then Some (12%N, t2)
            else if (d =? 110)%N then Some (10%N, t2)
            else if (d =? 114)%N then Some (13%N, t2)
            else if (d =? 116)%N then Some (9%N, t2)
            else None
        end
      else Some (c, t1)
  end.

(** A code point that Python text can hold and that is not a high
    surrogate. *)
Definition plain_code_point (c : char) : Prop :=
  (c < 1114112)%N /\ ~ (55296 <= c < 56320)%N.

(** * Properties *)

(** ** Text *)

Lemma str_eqb_eq (a b : pystr) : str_eqb a b = true <-> a = b.
Proof.
  unfold str_eqb. destruct (list_eq_dec N.eq_dec a b); split; congruence.
Qed.

Lemma str_eqb_neq (a b : pystr) : str_eqb a b = false <-> a <> b.
Proof.
  unfold str_eqb. destruct (list_eq_dec N.eq_dec a b); split; congruence.
Qed.

Lemma str_eqb_refl (a : pystr) : str_eqb a a = true.
Proof. now apply str_eqb_eq. Qed.

Lemma truthy_true (s : pystr) : truthy s = true <-> s <> [].
Proof. destruct s; simpl; split; congruence. Qed.

Lemma truthy_false (s : pystr) : truthy s = false <-> s = [].
Proof. destruct s; simpl; split; congruence. Qed.

(** Induction on a text one or two characters at a time. *)
Lemma pystr_ind2 (P : pystr -> Prop) :
  P [] ->
  (forall c, P [c]) ->
  (forall c d t, P t -> P (d :: t) -> P (c :: d :: t)) ->
  forall t, P t.
Proof.
  intros H0 H1 H2 t.
  assert (G : P t /\ forall c, P (c :: t)).
  { induction t as [|d t [IHt IHc]]; split; auto. }
  exact (proj1 G).
Qed.

Lemma lstrip_nil (s : pystr) : lstrip s = [] <-> forallb isspace s = true.
Proof.
  induction s as [|c s IH]; simpl.
  - tauto.
  - destruct (isspace c); simpl; [exact IH | split; discriminate].
Qed.

(** What [lstrip] leaves is empty or starts with a character that is not
    white space. *)
Lemma lstrip_head (s : pystr) :
  lstrip s = [] \/ exists c t, lstrip s = c :: t /\ isspace c = false.
Proof.
  induction s as [|c s IH]; simpl; [now left|].
  destruct (isspace c) eqn:E; [exact IH | right; eauto].
Qed.

Lemma forallb_rev {A} (f : A -> bool) (l : list A) :
  forallb f (rev l) = forallb f l.
Proof.
  induction l as [|x l IH]; simpl; [reflexivity|].
  rewrite forallb_app, IH. simpl. rewrite andb_true_r. apply andb_comm.
Qed.

Lemma strip_nil (s : pystr) : strip s = [] <-> forallb isspace s = true.
Proof.
  unfold strip, rstrip. rewrite <- lstrip_nil.
  split.
  - intros H. apply (f_equal (@rev char)) in H. rewrite rev_involutive in H.
    simpl in H. apply lstrip_nil in H. rewrite forallb_rev in H.
    destruct (lstrip_head s) as [E | (c & t & E & Hc)]; [exact E|].
    rewrite E in H. simpl in H. rewrite Hc in H. discriminate.
  - intros ->. reflexivity.
Qed.

(** A cell is non-empty after trimming exactly when it holds a character
    that is not white space. *)
Lemma strip_content (s : pystr) :
  strip s <> [] <-> exists c, In c s /\ isspace c = false.
Proof.
  rewrite strip_nil. split.
  - intros H. induction s as [|c s IH]; simpl in *; [congruence|].
    destruct (isspace c) eqn:E.
    + destruct IH as (d & Hd & Hs); [exact H | eauto].
    + eauto.
  - intros (c & Hin & Hc) H. rewrite forallb_forall in H.
    rewrite (H c Hin) in Hc. discriminate.
Qed.

(** ** RowShaper *)

Lemma any_has_content (row : list pystr) :
  any (fun val => truthy (strip val)) row = true <-> has_content row.
Proof.
  unfold any, has_content. rewrite existsb_exists.
  split; intros (cell & Hin & H); exists cell; split; auto;
    now apply truthy_true.
Qed.

(** C7. Blank-row filtering goes through the rows in order and keeps, as it
    is, each row with a cell that is non-empty after trimming, and no other
    row; a cell is non-empty after trimming exactly when it holds a
    character that is not white space. *)
Theorem drop_empty_rows_retains (rows : list (list pystr)) :
  retains has_content rows (drop_empty_rows rows)
  /\ (forall cell : pystr,
        strip cell <> [] <-> exists c, In c cell /\ isspace c = false).
Proof.
  split; [|exact strip_content].
  unfold drop_empty_rows.
  induction rows as [|row rows IH]; simpl.
  - constructor.
  - destruct (any _ row) eqn:E.
    + apply retains_keep; [now apply any_has_content | exact IH].
    + apply retains_skip; [|exact IH].
      intros H. apply any_has_content in H. congruence.
Qed.

Lemma chop_at_blank_prefix (row : list pystr) :
  exists rest,
    row = chop_at_blank row ++ rest
    /\ Forall (fun item => item <> []) (chop_at_blank row)
    /\ (rest = [] \/ exists rest', rest = [] :: rest').
Proof.
  induction row as [|item row (rest & E & HF & Hr)]; simpl.
  - exists []. repeat split; auto.
  - destruct (str_eqb item []) eqn:Hi.
    + apply str_eqb_eq in Hi. subst item. exists ([] :: row).
      repeat split; eauto.
    + apply str_eqb_neq in Hi. exists rest. simpl.
      repeat split; [congruence | now constructor | exact Hr].
Qed.

(** C10. A header cell that is not empty but holds white space only does
    not end the effective headers: truncation goes on behind it, and the
    effective headers are the cells before the first cell equal to the empty
    string.  Blank-row filtering trims: a row made of such a cell is
    dropped. *)
Theorem chop_at_blank_keeps_whitespace (ws : pystr) (row : list pystr) :
  ws <> [] ->
  forallb isspace ws = true ->
  chop_at_blank (ws :: row) = ws :: chop_at_blank row
  /\ drop_empty_rows [[ws]] = []
  /\ (exists rest,
        row = chop_at_blank row ++ rest
        /\ Forall (fun item => item <> []) (chop_at_blank row)
        /\ (rest = [] \/ exists rest', rest = [] :: rest')).
Proof.
  intros Hne Hws. split; [|split].
  - simpl. apply str_eqb_neq in Hne. now rewrite Hne.
  - unfold drop_empty_rows. simpl.
    apply strip_nil in Hws. rewrite Hws. reflexivity.
  - apply chop_at_blank_prefix.
Qed.

Lemma chop_at_blank_keeps_whitespace_witness :
  chop_at_blank [u " "; u "x"; u ""; u "y"] = [u " "; u "x"]
  /\ drop_empty_rows [[u " "]] = [].
Proof.
  destruct (@chop_at_blank_keeps_whitespace (u " ") [u "x"; u ""; u "y"])
    as (H1 & H2 & _).
  - discriminate.
  - reflexivity.
  - split; [exact H1 | exact H2].
Defined.

(** ** HeaderKeyNormalizer *)

Section Runs.
Variable cls : char -> bool.

Lemma group_runs_cons (c : char) (s : pystr) :
  exists run runs,
    group_runs cls (c :: s) = (cls c, c :: run) :: runs
    /\ (group_runs cls s = (cls c, run) :: runs
        \/ run = [] /\ group_runs cls s = runs
           /\ match runs with r :: _ => fst r <> cls c | [] => True end).
Proof.
  simpl. destruct (group_runs cls s) as [|[b run] runs] eqn:E.
  - exists [], []. split; [reflexivity|]. right. auto.
  - destruct (Bool.eqb b (cls c)) eqn:Hb.
    + apply eqb_prop in Hb. subst b. exists run, runs. auto.
    + apply eqb_false_iff in Hb. exists [], ((b, run) :: runs).
      split; [reflexivity|]. right. auto.
Qed.

(** The runs, put end to end, are the text. *)
Lemma group_runs_concat (s : pystr) : concat (map snd (group_runs cls s)) = s.
Proof.
  induction s as [|c s IH]; [reflexivity|].
  destruct (group_runs_cons c s) as (run & runs & -> & [E | (-> & E & _)]);
    rewrite E in IH; simpl in *; congruence.
Qed.

(** A run is not empty and lies on one side of the class. *)
Lemma group_runs_uniform (s : pystr) :
  Forall (fun r => snd r <> [] /\ Forall (fun c => cls c = fst r) (snd r))
    (group_runs cls s).
Proof.
  induction s as [|c s IH]; [constructor|].
  destruct (group_runs_cons c s) as (run & runs & -> & [E | (-> & E & _)]);
    rewrite E in IH.
  - inversion IH as [|? ? [_ Hrun] Hruns]; subst. simpl in *.
    constructor; [split; [discriminate | now constructor] | exact Hruns].
  - constructor; [|exact IH]. simpl. split; [discriminate | now constructor].
Qed.

(** The runs are maximal: neighbours are on different sides. *)
Lemma group_runs_alternating (s : pystr) : alternating (group_runs cls s).
Proof.
  induction s as [|c s IH]; [exact I|].
  destruct (group_runs_cons c s) as (run & runs & -> & [E | (-> & E & Hh)]);
    rewrite E in IH.
  - exact IH.
  - destruct runs as [|r runs]; [exact I|]. simpl. split; [|exact IH].
    simpl in Hh. intros H. apply Hh. now symmetry.
Qed.

Variable repl : pystr.

(** The scanner against the runs: inside a match, the rest of the run that
    is being replaced gives nothing more. *)
Lemma re_sub_plus_group_runs (s : pystr) (in_match : bool) :
  re_sub_plus cls repl in_match s =
  match group_runs cls s with
  | (true, _) :: runs =>
      (if in_match then [] else repl)
      ++ flat_map (fun r : bool * pystr => if fst r then repl else snd r) runs
  | runs => flat_map (fun r : bool * pystr => if fst r then repl else snd r) runs
  end.
Proof.
  revert in_match. induction s as [|c s IH]; intros in_match; [reflexivity|].
  cbn [re_sub_plus].
  destruct (group_runs_cons c s) as (run & runs & -> & Hs).
  destruct (cls c) eqn:Hc.
  - rewrite (IH true).
    destruct Hs as [-> | (-> & -> & Hh)]; [reflexivity|].
    destruct runs as [|[[] r] runs]; simpl in *; congruence.
  - rewrite (IH false).
    destruct Hs as [-> | (-> & -> & Hh)]; [reflexivity|].
    destruct runs as [|[[] r] runs]; simpl in *; congruence.
Qed.

Lemma re_sub_plus_replace_runs (s : pystr) :
  re_sub_plus cls repl false s = replace_runs cls repl s.
Proof.
  rewrite re_sub_plus_group_runs. unfold replace_runs.
  destruct (group_runs cls s) as [|[[] r] runs]; reflexivity.
Qed.

End Runs.

Lemma re_sub_plus_key_chars (s : pystr) (in_match : bool) :
  forallb key_char
    (re_sub_plus (fun c => negb (key_char c)) (u "_") in_match s) = true.
Proof.
  revert in_match. induction s as [|c s IH]; intros in_match; [reflexivity|].
  simpl. destruct (key_char c) eqn:Hc; simpl.
  - now rewrite Hc, IH.
  - rewrite forallb_app, IH. now destruct in_match.
Qed.

(** C4. The keys are as many as the headers and in the same positions; each
    key is the lower-cased header with every maximal run of characters
    outside [a-z0-9_] replaced by one underscore, the runs being the
    non-empty, one-sided, alternating pieces that make up the text; every
    character of a key is in [a-z0-9_]. *)
Theorem headers_to_keys_normalized {rt : PyRuntime} (headers : list pystr) :
  length (headers_to_keys headers) = length headers
  /\ headers_to_keys headers =
     map (fun header =>
            replace_runs (fun c => negb (key_char c)) (u "_")
              (str_lower header))
       headers
  /\ Forall (fun key => forallb key_char key = true) (headers_to_keys headers)
  /\ (forall (cls : char -> bool) (s : pystr),
        concat (map snd (group_runs cls s)) = s
        /\ Forall
             (fun r => snd r <> [] /\ Forall (fun c => cls c = fst r) (snd r))
             (group_runs cls s)
        /\ alternating (group_runs cls s)).
Proof.
  unfold headers_to_keys. split; [apply length_map|]. split; [|split].
  - apply map_ext. intros header. apply re_sub_plus_replace_runs.
  - apply Forall_map, Forall_forall. intros header _.
    apply re_sub_plus_key_chars.
  - intros cls s.
    auto using group_runs_concat, group_runs_uniform, group_runs_alternating.
Qed.

(** ** Dicts *)

Section Dict.
Context {V : Type}.

Lemma dict_get_set (d : dict V) (k k' : pystr) (v : V) :
  dict_get (dict_set d k v) k' =
  if str_eqb k k' then Some v else dict_get d k'.
Proof.
  induction d as [|[k0 v0] d IH]; simpl; [reflexivity|].
  destruct (str_eqb k0 k) eqn:E0; simpl.
  - apply str_eqb_eq in E0. subst k0. now destruct (str_eqb k k').
  - rewrite IH. destruct (str_eqb k0 k') eqn:E1; [|reflexivity].
    destruct (str_eqb k k') eqn:E2; [|reflexivity].
    apply str_eqb_eq in E1, E2. apply str_eqb_neq in E0. congruence.
Qed.

Lemma dict_get_app (d d' : dict V) (k : pystr) :
  dict_get (d ++ d') k =
  match dict_get d k with Some v => Some v | None => dict_get d' k end.
Proof.
  induction d as [|[k0 v0] d IH]; simpl; [reflexivity|].
  now destruct (str_eqb k0 k).
Qed.

Lemma dict_get_none (d : dict V) (k : pystr) :
  dict_get d k = None <-> ~ In k (keys d).
Proof.
  induction d as [|[k0 v0] d IH]; simpl; [tauto|].
  destruct (str_eqb k0 k) eqn:E.
  - apply str_eqb_eq in E. split; [discriminate | tauto].
  - apply str_eqb_neq in E. tauto.
Qed.

(** Assigning the pairs one after the other leaves, under each key, the
    value of the last pair with that key. *)
Lemma fold_dict_set_get (pairs : list (pystr * V)) (d : dict V) (k : pystr) :
  dict_get (fold_left (fun d kv => dict_set d (fst kv) (snd kv)) pairs d) k =
  match dict_get (rev pairs) k with Some v => Some v | None => dict_get d k end.
Proof.
  revert d. induction pairs as [|[k0 v0] pairs IH]; intros d; simpl.
  - reflexivity.
  - rewrite IH, dict_get_app, dict_get_set. simpl.
    destruct (dict_get (rev pairs) k); [reflexivity|].
    now destruct (str_eqb k0 k).
Qed.

Lemma dict_of_get (pairs : list (pystr * V)) (k : pystr) :
  dict_get (dict_of pairs) k = dict_get (rev pairs) k.
Proof.
  unfold dict_of. rewrite fold_dict_set_get.
  now destruct (dict_get (rev pairs) k).
Qed.

Lemma keys_dict_set (d : dict V) (k k' : pystr) (v : V) :
  In k' (keys (dict_set d k v)) <-> In k' (keys d) \/ k' = k.
Proof.
  induction d as [|[k0 v0] d IH]; simpl.
  - split; [intros [<- | []]; auto | intros [[] | ->]; auto].
  - destruct (str_eqb k0 k) eqn:E; simpl.
    + apply str_eqb_eq in E. subst k0. split; [tauto|].
      intros [H | ->]; auto.
    + rewrite IH. tauto.
Qed.

Lemma dict_set_NoDup (d : dict V) (k : pystr) (v : V) :
  NoDup (keys d) -> NoDup (keys (dict_set d k v)).
Proof.
  induction d as [|[k0 v0] d IH]; simpl; intros H.
  - constructor; [intros [] | constructor].
  - inversion H as [|? ? Hk0 Hd]; subst.
    destruct (str_eqb k0 k) eqn:E; simpl; [exact H|].
    apply str_eqb_neq in E. constructor; [|auto].
    fold (keys (dict_set d k v)). rewrite keys_dict_set.
    intros [Hin | ->]; auto.
Qed.

(** A dict holds one value under a key. *)
Lemma dict_items_functional (d : dict V) (k : pystr) (v v' : V) :
  NoDup (keys d) -> In (k, v) d -> In (k, v') d -> v = v'.
Proof.
  induction d as [|[k0 v0] d IH]; simpl; intros Hnd H H'; [easy|].
  inversion Hnd as [|? ? Hk0 Hnd']; subst.
  assert (Hkeys : forall w, In (k, w) d -> In k (keys d)).
  { intros w Hw. unfold keys. now apply (in_map fst) in Hw. }
  destruct H as [E | H], H' as [E' | H'].
  - congruence.
  - injection E as -> ->. exfalso. eauto.
  - injection E' as -> ->. exfalso. eauto.
  - now apply IH.
Qed.

(** A dict built by assignments holds each key once. *)
Lemma dict_of_NoDup (pairs : list (pystr * V)) : NoDup (keys (dict_of pairs)).
Proof.
  unfold dict_of.
  assert (G : forall d : dict V, NoDup (keys d) ->
            NoDup (keys (fold_left
                           (fun d kv => dict_set d (fst kv) (snd kv)) pairs d))).
  { induction pairs as [|p pairs IH]; intros d Hd; simpl; [exact Hd|].
    apply IH, dict_set_NoDup, Hd. }
  apply G. constructor.
Qed.

(** The pair at the last position that carries a key decides the lookup. *)
Lemma dict_of_last (pairs : list (pystr * V)) (j : nat) (k : pystr) (v : V) :
  nth_error pairs j = Some (k, v) ->
  (forall j' p, j < j' -> nth_error pairs j' = Some p -> fst p <> k) ->
  dict_get (dict_of pairs) k = Some v.
Proof.
  intros Hj Hlast. rewrite dict_of_get.
  destruct (nth_error_split pairs j Hj) as (l1 & l2 & -> & Hlen).
  rewrite rev_app_distr. simpl. rewrite <- app_assoc, dict_get_app.
  assert (Hn : dict_get (rev l2) k = None).
  { apply dict_get_none. unfold keys. rewrite in_map_iff.
    intros ([k' v'] & Hk & Hin). simpl in Hk. subst k'.
    apply in_rev in Hin.
    destruct (In_nth_error _ _ Hin) as (n & Hnth).
    apply (Hlast (length l1 + S n) (k, v')); [lia | | reflexivity].
    rewrite nth_error_app2 by lia.
    replace (length l1 + S n - length l1) with (S n) by lia. exact Hnth. }
  rewrite Hn. simpl. now rewrite str_eqb_refl.
Qed.

End Dict.

Lemma zip_nth_error {A B} (l : list A) (l' : list B) (i : nat) (a : A) (b : B) :
  nth_error (zip l l') i = Some (a, b)
  <-> nth_error l i = Some a /\ nth_error l' i = Some b.
Proof.
  unfold zip. revert l' i. induction l as [|x l IH]; intros l' i.
  - simpl. destruct i; simpl; split; [discriminate | intros []; discriminate
                                      | discriminate | intros []; discriminate].
  - destruct l' as [|y l']; simpl.
    + destruct i; simpl; split; try discriminate; intros []; discriminate.
    + destruct i; simpl; [|apply IH].
      split; [intros [= -> ->]; auto | intros [[= ->] [= ->]]; auto].
Qed.

Lemma zip_firstn {A B} (l : list A) (l' : list B) :
  zip l l' = zip (firstn (min (length l) (length l')) l)
                 (firstn (min (length l) (length l')) l').
Proof.
  unfold zip. revert l'. induction l as [|x l IH]; intros l'; [reflexivity|].
  destruct l' as [|y l']; [reflexivity|]. simpl. now rewrite <- IH.
Qed.

(** ** Coercer *)

Lemma bind_return {A B} (m : M A) (f : A -> M B) (log : list pystr) (b : B) :
  bind m f = (log, Return b) ->
  exists l a l', m = (l, Return a) /\ f a = (l', Return b) /\ log = l ++ l'.
Proof.
  unfold bind. destruct m as [l [a|e]]; [|discriminate].
  destruct (f a) as [l' r] eqn:E. intros [= <- ->]. eauto 6.
Qed.

Lemma bind_raise_left {A B} (m : M A) (f : A -> M B) (l : list pystr) (e : exn) :
  m = (l, Raise e) -> bind m f = (l, Raise e).
Proof. now intros ->. Qed.

Lemma target_in_true (t : pystr) (tags : list pystr) :
  target_in (Some t) tags = true <-> In t tags.
Proof.
  simpl. rewrite existsb_exists. split.
  - intros (x & Hin & E). apply str_eqb_eq in E. now subst.
  - intros H. exists t. split; [exact H | apply str_eqb_refl].
Qed.

Lemma target_in_false (t : pystr) (tags : list pystr) :
  target_in (Some t) tags = false <-> ~ In t tags.
Proof.
  rewrite <- target_in_true. destruct (target_in (Some t) tags); split;
    congruence.
Qed.

Lemma re_sub_class_delete (cls : char -> bool) (s : pystr) :
  re_sub_class cls [] s = filter (fun c => negb (cls c)) s.
Proof.
  unfold re_sub_class. induction s as [|c s IH]; simpl; [reflexivity|].
  rewrite IH. now destruct (cls c).
Qed.

Section CoercerFacts.
Context {rt : PyRuntime}.

(** The value stored for an [int] or [integer] target. *)
Lemma coerce_value_int (tag val : pystr) :
  tag = u "int" \/ tag = u "integer" ->
  coerce_value (Some tag) val =
  let digits := re_sub_class comma_dollar [] val in
  if truthy digits
  then match int_of_str digits with
       | Some z => ([], Return (VInt z))
       | None => ([], Raise ValueError)
       end
  else ([], Return VNone).
Proof.
  intros Htag. unfold coerce_value.
  assert (E : target_in (Some tag) [u "int"; u "integer"] = true).
  { apply target_in_true. simpl. destruct Htag; auto. }
  rewrite E. cbv zeta.
  destruct (truthy _); [|reflexivity].
  now destruct (int_of_str _).
Qed.

(** The value stored for a target that is none of the six known tags. *)
Lemma coerce_value_unknown (tag val : pystr) :
  ~ In tag [u "int"; u "integer"; u "float"; u "date"; u "datetime";
            u "timestamp"] ->
  coerce_value (Some tag) val =
  ([u "Unknown coercion target " ++ repr tag ++ nl], Return (VStr val)).
Proof.
  intros Htag. unfold coerce_value.
  rewrite !(proj2 (target_in_false _ _)); [reflexivity | | | |];
    intros H; apply Htag; simpl in *; tauto.
Qed.

Variable coercions : coercion_spec.

(** The loop leaves alone the keys it does not visit. *)
Lemma coerce_items_other (items : list (pystr * pystr)) :
  forall (result0 result : dict pyval) (log : list pystr) (k : pystr),
    coerce_items items coercions result0 = (log, Return result) ->
    ~ In k (keys items) ->
    dict_get result k = dict_get result0 k.
Proof.
  induction items as [|[k0 v0] items IH]; intros result0 result log k; simpl.
  - now intros [= _ ->].
  - intros H Hk. apply bind_return in H as (l & w & l' & _ & H & _).
    rewrite (@IH _ _ _ k H) by tauto.
    rewrite dict_get_set. destruct (str_eqb k0 k) eqn:E; [|reflexivity].
    apply str_eqb_eq in E. tauto.
Qed.

(** When the loop returns, each item has been coerced without an exception,
    what it wrote is on the error stream and its value is in the result. *)
Lemma coerce_items_lookup (items : list (pystr * pystr)) :
  forall (result0 result : dict pyval) (log : list pystr) (k val : pystr),
    NoDup (keys items) ->
    coerce_items items coercions result0 = (log, Return result) ->
    In (k, val) items ->
    exists l w,
      coerce_value (coercions_get coercions k) val = (l, Return w)
      /\ dict_get result k = Some w
      /\ incl l log.
Proof.
  induction items as [|[k0 v0] items IH];
    intros result0 result log k val Hnd H Hin; simpl in *; [tauto|].
  inversion Hnd as [|? ? Hk0 Hnd']; subst.
  apply bind_return in H as (l & w & l' & Hc & H & ->).
  destruct Hin as [[= -> ->] | Hin].
  - exists l, w. split; [exact Hc|]. split; [|now apply incl_appl, incl_refl].
    rewrite (@coerce_items_other items _ _ _ _ H Hk0), dict_get_set.
    now rewrite str_eqb_refl.
  - destruct (@IH _ _ _ _ _ Hnd' H Hin) as (l1 & w1 & H1 & H2 & H3).
    exists l1, w1. split; [exact H1|]. split; [exact H2|].
    now apply incl_appr.
Qed.

(** An item whose coercion raises makes the loop raise. *)
Lemma coerce_items_raise (items : list (pystr * pystr)) :
  forall (result0 : dict pyval) (k val : pystr) (l : list pystr) (e : exn),
    In (k, val) items ->
    coerce_value (coercions_get coercions k) val = (l, Raise e) ->
    exists log e', coerce_items items coercions result0 = (log, Raise e').
Proof.
  induction items as [|[k0 v0] items IH];
    intros result0 k val l e Hin Hc; simpl in *; [tauto|].
  destruct (coerce_value (coercions_get coercions k0) v0) as [l0 [w|e0]] eqn:E0.
  - destruct Hin as [[= -> ->] | Hin]; [congruence|].
    destruct (@IH (dict_set result0 k0 w) _ _ _ _ Hin Hc) as (log & e' & H).
    simpl. rewrite H. eauto.
  - simpl. eauto.
Qed.

(** A loop over items that are all coerced without an exception returns. *)
Lemma coerce_items_return (items : list (pystr * pystr)) :
  forall result0 : dict pyval,
    (forall k val, In (k, val) items ->
       exists l w, coerce_value (coercions_get coercions k) val = (l, Return w)) ->
    exists log result, coerce_items items coercions result0 = (log, Return result).
Proof.
  induction items as [|[k0 v0] items IH]; intros result0 Hall; simpl.
  - unfold ret. eauto.
  - destruct (Hall k0 v0) as (l & w & ->); [now left|].
    destruct (IH (dict_set result0 k0 w)) as (log & result & H).
    { intros k val Hin. apply Hall. now right. }
    simpl. rewrite H. eauto.
Qed.

End CoercerFacts.

(** *** [int] reads exactly the valid literals *)

Lemma ascii_digit_add (d : N) :
  (d < 10)%N -> ascii_digit (48 + d)%N = Some d.
Proof.
  intros H. unfold ascii_digit.
  assert (E1 : (48 <=? 48 + d)%N = true) by (apply N.leb_le; lia).
  assert (E2 : (48 + d <=? 57)%N = true) by (apply N.leb_le; lia).
  rewrite E1, E2. cbn [andb]. f_equal. lia.
Qed.

Lemma ascii_digit_inv (c d : N) :
  ascii_digit c = Some d -> (d < 10)%N /\ c = (48 + d)%N.
Proof.
  unfold ascii_digit. destruct ((48 <=? c)%N && (c <=? 57)%N) eqn:E;
    [|discriminate].
  apply andb_prop in E as [E1 E2]. apply N.leb_le in E1, E2.
  intros [= <-]. lia.
Qed.

Lemma digit_not_underscore (d : N) : (d < 10)%N -> ((48 + d =? 95)%N = false).
Proof. intros H. apply N.eqb_neq. lia. Qed.

Lemma c_isspace_stops (c : char) :
  c_isspace c = true -> c <> 95%N /\ ascii_digit c = None.
Proof.
  unfold c_isspace, ascii_digit. intros H.
  assert (Hc : (c <= 32)%N).
  { apply orb_prop in H as [H | H].
    - apply andb_prop in H as [_ H]. apply N.leb_le in H. lia.
    - apply N.eqb_eq in H. lia. }
  split; [lia|].
  destruct ((48 <=? c)%N && (c <=? 57)%N) eqn:E; [|reflexivity].
  apply andb_prop in E as [E _]. apply N.leb_le in E. lia.
Qed.

Lemma digit_not_space (d : N) : (d < 10)%N -> c_isspace (48 + d)%N = false.
Proof.
  intros H. destruct (c_isspace (48 + d)%N) eqn:E; [|reflexivity].
  apply c_isspace_stops in E as [_ E]. now rewrite ascii_digit_add in E.
Qed.

Lemma skip_spaces_split (s : pystr) :
  exists lead,
    s = lead ++ skip_spaces s /\ forallb c_isspace lead = true.
Proof.
  induction s as [|c s (lead & E & H)]; simpl.
  - exists []. auto.
  - destruct (c_isspace c) eqn:Hc.
    + exists (c :: lead). simpl. rewrite Hc, H. split; [congruence | auto].
    + exists []. auto.
Qed.

Lemma skip_spaces_app (lead t : pystr) :
  forallb c_isspace lead = true -> skip_spaces (lead ++ t) = skip_spaces t.
Proof.
  induction lead as [|c lead IH]; simpl; [reflexivity|]. intros H.
  apply andb_prop in H as [Hc Hl]. rewrite Hc. auto.
Qed.

Lemma skip_spaces_nil (t : pystr) :
  skip_spaces t = [] <-> forallb c_isspace t = true.
Proof.
  induction t as [|c t IH]; simpl; [tauto|].
  destruct (c_isspace c); simpl; [exact IH | split; discriminate].
Qed.

Lemma digit_groups_head (body : pystr) (ds : list N) :
  digit_groups body ds ->
  exists d t, body = (48 + d)%N :: t /\ (d < 10)%N.
Proof. destruct 1; eauto. Qed.

Lemma scan_digits_stop (acc : Z) (prev : char) (rest : pystr) :
  prev <> 95%N -> scan_stops rest ->
  scan_digits acc prev rest = Some (acc, rest) /\ count_digits rest = 0.
Proof.
  intros Hprev Hrest. apply N.eqb_neq in Hprev.
  destruct rest as [|c rest]; simpl; [now rewrite Hprev|].
  destruct Hrest as [Hc Hd]. apply N.eqb_neq in Hc.
  now rewrite Hc, Hd, Hprev.
Qed.

(** The digit loop reads a text of digit groups to its end and gives the
    number the digits denote. *)
Lemma scan_digits_groups (body : pystr) (ds : list N) :
  digit_groups body ds ->
  forall (acc : Z) (prev : char) (rest : pystr),
    scan_stops rest ->
    scan_digits acc prev (body ++ rest) = Some (base10_from acc ds, rest)
    /\ count_digits (body ++ rest) = length ds.
Proof.
  induction 1 as [d Hd | d body ds Hd _ IH | d body ds Hd _ IH];
    intros acc prev rest Hrest;
    cbn [app scan_digits count_digits length base10_from fold_left];
    rewrite (digit_not_underscore Hd), (ascii_digit_add Hd).
  - destruct (@scan_digits_stop (10 * acc + Z.of_N d) (48 + d)%N rest)
      as [E1 E2]; [lia | exact Hrest|].
    now rewrite E1, E2.
  - destruct (IH (10 * acc + Z.of_N d)%Z (48 + d)%N rest Hrest) as [E1 E2].
    now rewrite E1, E2.
  - change (95 =? 95)%N with true. cbv iota.
    destruct (IH (10 * acc + Z.of_N d)%Z 95%N rest Hrest) as [E1 E2].
    now rewrite E1, E2.
Qed.

Lemma scan_digits_digit (d0 : N) (acc : Z) (prev : char) (s0 : pystr) :
  (d0 < 10)%N ->
  scan_digits acc prev ((48 + d0)%N :: s0)
  = scan_digits (10 * acc + Z.of_N d0) (48 + d0)%N s0
  /\ count_digits ((48 + d0)%N :: s0) = S (count_digits s0).
Proof.
  intros H. cbn [scan_digits count_digits].
  now rewrite (digit_not_underscore H), (ascii_digit_add H).
Qed.

(** What the digit loop reads from a text that starts with a digit is a
    text of digit groups, and it stops where the loop has to stop. *)
Lemma scan_digits_sound (s0 : pystr) :
  forall (d0 : N) (acc : Z) (prev : char) (v : Z) (rest : pystr),
    (d0 < 10)%N ->
    scan_digits acc prev ((48 + d0)%N :: s0) = Some (v, rest) ->
    exists body ds,
      (48 + d0)%N :: s0 = body ++ rest
      /\ digit_groups body ds /\ v = base10_from acc ds
      /\ scan_stops rest
      /\ count_digits ((48 + d0)%N :: s0) = length ds.
Proof.
  assert (Hstop : forall d0 acc v rest t,
            (d0 < 10)%N -> scan_stops t ->
            scan_digits (10 * acc + Z.of_N d0) (48 + d0)%N t = Some (v, rest) ->
            exists body ds,
              (48 + d0)%N :: t = body ++ rest
              /\ digit_groups body ds /\ v = base10_from acc ds
              /\ scan_stops rest
              /\ S (count_digits t) = length ds).
  { intros d0 acc v rest t Hd0 Ht H.
    destruct (@scan_digits_stop (10 * acc + Z.of_N d0) (48 + d0)%N t)
      as [E1 E2]; [lia | exact Ht|].
    rewrite E1 in H. injection H as <- <-.
    exists [(48 + d0)%N], [d0]. rewrite E2.
    split; [reflexivity|]. split; [now constructor|]. auto. }
  assert (Hdigit : forall d0 acc prev v rest t,
            (d0 < 10)%N ->
            (forall d1 acc1 prev1, (d1 < 10)%N ->
               scan_digits acc1 prev1 ((48 + d1)%N :: t) = Some (v, rest) ->
               exists body ds,
                 (48 + d1)%N :: t = body ++ rest
                 /\ digit_groups body ds /\ v = base10_from acc1 ds
                 /\ scan_stops rest
                 /\ count_digits ((48 + d1)%N :: t) = length ds) ->
            forall d1, (d1 < 10)%N ->
            scan_digits (10 * acc + Z.of_N d0) prev ((48 + d1)%N :: t)
            = Some (v, rest) ->
            exists body ds,
              (48 + d0)%N :: (48 + d1)%N :: t = body ++ rest
              /\ digit_groups body ds /\ v = base10_from acc ds
              /\ scan_stops rest
              /\ S (count_digits ((48 + d1)%N :: t)) = length ds).
  { intros d0 acc prev v rest t Hd0 IH d1 Hd1 H.
    destruct (IH d1 _ _ Hd1 H) as (body & ds & Eb & Hg & Hv & Hs & Hc).
    exists ((48 + d0)%N :: body), (d0 :: ds).
    split; [rewrite Eb; reflexivity|]. split; [now constructor|].
    split; [exact Hv|]. split; [exact Hs|]. cbn [length]. now rewrite Hc. }
  assert (Hnil : forall (d0 : N) (acc : Z) (prev : char) (v : Z) (rest : pystr),
            (d0 < 10)%N ->
            scan_digits acc prev [(48 + d0)%N] = Some (v, rest) ->
            exists body ds,
              [(48 + d0)%N] = body ++ rest
              /\ digit_groups body ds /\ v = base10_from acc ds
              /\ scan_stops rest
              /\ count_digits [(48 + d0)%N] = length ds).
  { intros d0 acc prev v rest Hd0 H.
    destruct (scan_digits_digit acc prev [] Hd0) as [E1 E2].
    unfold pystr, char in *.
    rewrite E1 in H. rewrite E2.
    apply (Hstop d0 acc v rest [] Hd0); [exact I | exact H]. }
  induction s0 as [|d|d e t IHt IHet] using pystr_ind2;
    intros d0 acc prev v rest Hd0 H; [now apply (Hnil d0 acc prev)| |].
  - (* one character behind the digit *)
    destruct (scan_digits_digit acc prev [d] Hd0) as [E1 E2].
    unfold pystr, char in *.
    rewrite E1 in H. rewrite E2.
    destruct (N.eqb_spec d 95) as [-> | Hd95].
    + cbn [scan_digits] in H. change (95 =? 95)%N with true in H.
      rewrite (digit_not_underscore Hd0) in H. discriminate.
    + destruct (ascii_digit d) as [d1|] eqn:Hd.
      * destruct (ascii_digit_inv _ Hd) as [Hd1 ->].
        apply (Hdigit d0 acc (48 + d0)%N v rest [] Hd0);
          [intros d2 a2 p2 ? ?; now apply (Hnil d2 a2 p2) | exact Hd1 | exact H].
      * apply (Hstop _ _ _ _ _ Hd0); [|exact H]. now split.
  - destruct (scan_digits_digit acc prev (d :: e :: t) Hd0) as [E1 E2].
    unfold pystr, char in *.
    rewrite E1 in H. rewrite E2.
    destruct (N.eqb_spec d 95) as [-> | Hd95].
    + (* an underscore: a digit has to follow *)
      cbn [scan_digits] in H. change (95 =? 95)%N with true in H.
      rewrite (digit_not_underscore Hd0) in H. cbv iota in H.
      destruct (N.eqb_spec e 95) as [-> | He95]; [discriminate|].
      destruct (ascii_digit e) as [d1|] eqn:He; [|discriminate].
      destruct (ascii_digit_inv _ He) as [Hd1 ->].
      assert (H' : scan_digits (10 * acc + Z.of_N d0) 95%N ((48 + d1)%N :: t)
                   = Some (v, rest)).
      { rewrite (proj1 (scan_digits_digit _ _ _ Hd1)). exact H. }
      destruct (IHt d1 _ _ _ _ Hd1 H')
        as (body & ds & Eb & Hg & Hv & Hs & Hc).
      exists ((48 + d0)%N :: 95%N :: body), (d0 :: ds).
      split; [rewrite Eb; reflexivity|]. split; [now constructor|].
      split; [exact Hv|]. split; [exact Hs|].
      change (count_digits (95%N :: (48 + d1)%N :: t))
        with (count_digits ((48 + d1)%N :: t)).
      cbn [length]. now rewrite Hc.
    + destruct (ascii_digit d) as [d1|] eqn:Hd.
      * destruct (ascii_digit_inv _ Hd) as [Hd1 ->].
        apply (Hdigit d0 acc (48 + d0)%N v rest (e :: t) Hd0);
          [intros d2 a2 p2 ? ?; now apply (IHet d2 a2 p2) | exact Hd1 | exact H].
      * apply (Hstop _ _ _ _ _ Hd0); [|exact H]. now split.
Qed.

Section IntLiteral.
Context {rt : PyRuntime}.

Lemma int_of_str_sign (s : pystr) :
  int_of_str s =
  match skip_spaces (to_ascii_decimal s) with
  | [] => None
  | c :: r =>
      if (c =? 43)%N then read_unsigned 1 r
      else if (c =? 45)%N then read_unsigned (-1) r
      else read_unsigned 1 (c :: r)
  end.
Proof.
  unfold int_of_str.
  destruct (skip_spaces (to_ascii_decimal s)) as [|c r]; [reflexivity|].
  destruct c as [|p]; [reflexivity|].
  do 6 (destruct p as [p|p|]; try reflexivity).
Qed.

Lemma read_unsigned_sound (sign z : Z) (digits : pystr) :
  read_unsigned sign digits = Some z ->
  exists body trail ds,
    digits = body ++ trail
    /\ digit_groups body ds
    /\ forallb c_isspace trail = true
    /\ digits_capped (length ds) = false
    /\ z = (sign * base10 ds)%Z.
Proof.
  unfold read_unsigned. destruct digits as [|c r]; [easy|].
  destruct (ascii_digit c) as [d0|] eqn:Hc; [|easy].
  destruct (ascii_digit_inv _ Hc) as [Hd0 ->]. unfold pystr, char in *.
  destruct (scan_digits 0 0%N ((48 + d0)%N :: r)) as [[v rest]|] eqn:Hscan;
    [|easy].
  destruct (@scan_digits_sound r d0 0%Z 0%N v rest Hd0 Hscan)
    as (body & ds & Eb & Hg & Hv & _ & Hcount).
  rewrite Hcount.
  destruct (digits_capped (length ds)) eqn:Hcap; [easy|].
  destruct (skip_spaces rest) eqn:Hrest; [|easy].
  intros [= <-]. exists body, rest, ds.
  split; [exact Eb|]. split; [exact Hg|].
  split; [now apply skip_spaces_nil|]. split; [exact Hcap|].
  now rewrite Hv.
Qed.

Lemma read_unsigned_groups (sign : Z) (body trail : pystr) (ds : list N) :
  digit_groups body ds ->
  forallb c_isspace trail = true ->
  read_unsigned sign (body ++ trail)
  = if digits_capped (length ds) then None else Some (sign * base10 ds)%Z.
Proof.
  intros Hg Htrail.
  assert (Hstop : scan_stops trail).
  { destruct trail as [|c trail]; [exact I|]. simpl in Htrail.
    apply andb_prop in Htrail as [Hc _]. now apply c_isspace_stops. }
  destruct (scan_digits_groups Hg 0%Z 0%N trail Hstop) as [Hscan Hcount].
  destruct (digit_groups_head Hg) as (d & t & Eb & Hd).
  unfold read_unsigned. rewrite Hscan, Hcount.
  rewrite (proj2 (skip_spaces_nil trail) Htrail).
  rewrite Eb. cbn [app]. now rewrite (ascii_digit_add Hd).
Qed.

(** What [int] makes of a valid literal: its integer, unless it has too many
    digits. *)
Lemma int_of_str_of_literal (s : pystr) (z : Z) (ds : list N) :
  int_literal_with s z ds ->
  int_of_str s = if digits_capped (length ds) then None else Some z.
Proof.
  rewrite int_of_str_sign.
  intros (lead & sign & body & trail & Es & Hlead & Htrail & Hsign & Hg).
  rewrite Es, (@skip_spaces_app lead _ Hlead).
  destruct (digit_groups_head Hg) as (d & t & Eb & Hd).
  pose proof (digit_not_space Hd) as Hns.
  destruct Hsign as [[-> ->] | [[-> ->] | [-> ->]]].
  - pose proof (@read_unsigned_groups 1 _ _ _ Hg Htrail) as Hr.
    rewrite Eb in Hr |- *. cbn [app skip_spaces]. rewrite Hns.
    destruct (N.eqb_spec (48 + d) 43) as [E | _]; [lia|].
    destruct (N.eqb_spec (48 + d) 45) as [E | _]; [lia|].
    etransitivity; [exact Hr|].
    destruct (digits_capped (length ds)); [reflexivity | f_equal; lia].
  - pose proof (@read_unsigned_groups 1 _ _ _ Hg Htrail) as Hr.
    cbn [app skip_spaces c_isspace]. simpl.
    etransitivity; [exact Hr|].
    destruct (digits_capped (length ds)); [reflexivity | f_equal; lia].
  - pose proof (@read_unsigned_groups (-1) _ _ _ Hg Htrail) as Hr.
    cbn [app skip_spaces c_isspace]. simpl.
    etransitivity; [exact Hr|].
    destruct (digits_capped (length ds)); [reflexivity | f_equal; lia].
Qed.

(** What [int] reads as an integer is a valid literal of that integer, of
    a number of digits that the limit lets through. *)
Lemma int_of_str_sound (s : pystr) (z : Z) :
  int_of_str s = Some z ->
  exists ds, int_literal_with s z ds /\ digits_capped (length ds) = false.
Proof.
  rewrite int_of_str_sign.
  destruct (skip_spaces_split (to_ascii_decimal s)) as (lead & Es & Hlead).
  destruct (skip_spaces (to_ascii_decimal s)) as [|c r]; [discriminate|].
  destruct (N.eqb_spec c 43) as [-> | H43];
    [|destruct (N.eqb_spec c 45) as [-> | H45]];
    intros H; apply read_unsigned_sound in H
      as (body & trail & ds & Ed & Hg & Ht & Hcap & ->);
    exists ds; (split; [|exact Hcap]).
  - exists lead, [43%N], body, trail.
    rewrite Es, Ed. split; [reflexivity|].
    split; [exact Hlead|]. split; [exact Ht|].
    split; [right; left; split; [reflexivity | lia] | exact Hg].
  - exists lead, [45%N], body, trail.
    rewrite Es, Ed. split; [reflexivity|].
    split; [exact Hlead|]. split; [exact Ht|].
    split; [right; right; split; [reflexivity | lia] | exact Hg].
  - exists lead, [], body, trail.
    rewrite Es, Ed. split; [reflexivity|].
    split; [exact Hlead|]. split; [exact Ht|].
    split; [left; split; [reflexivity | lia] | exact Hg].
Qed.

Lemma int_literal_nonempty (s : pystr) (z : Z) (ds : list N) :
  int_literal_with s z ds -> s <> [].
Proof.
  intros (lead & sign & body & trail & Es & _ & _ & _ & Hg) ->.
  destruct (digit_groups_head Hg) as (d & t & -> & _).
  change (to_ascii_decimal []) with (@nil char) in Es.
  symmetry in Es. apply app_eq_nil in Es as [_ Es].
  apply app_eq_nil in Es as [_ Es]. discriminate Es.
Qed.

Lemma digits_capped_spec (n : nat) :
  digits_capped n = true <-> over_digit_limit n.
Proof.
  unfold digits_capped, over_digit_limit.
  destruct (Nat.ltb_spec 640 n) as [H | H].
  - rewrite andb_true_iff, !Nat.ltb_lt. tauto.
  - split; [discriminate | lia].
Qed.

(** [int] reads a text as an integer exactly when the text is a valid
    literal of that integer with no more digits than the limit allows. *)
Lemma int_of_str_literal (s : pystr) (z : Z) :
  int_of_str s = Some z <-> int_literal_in_limit s z.
Proof.
  split.
  - intros H. apply int_of_str_sound in H as (ds & Hl & Hcap).
    exists ds. split; [exact Hl|]. intros Hover.
    apply digits_capped_spec in Hover. congruence.
  - intros (ds & Hl & Hover). rewrite (int_of_str_of_literal Hl).
    destruct (digits_capped (length ds)) eqn:E; [|reflexivity].
    exfalso. now apply Hover, digits_capped_spec.
Qed.

(** A text of decimal digits is a valid literal of the number that the
    digits denote in base 10. *)
Lemma digits_are_groups (d : N) (ds : list N) :
  Forall (fun d => (d < 10)%N) (d :: ds) ->
  digit_groups (map (N.add 48) (d :: ds)) (d :: ds).
Proof.
  revert d. induction ds as [|d' ds IH]; intros d H;
    inversion H as [|? ? Hd Hds]; subst.
  - now constructor.
  - simpl. apply groups_digit; [exact Hd | now apply IH].
Qed.

Lemma to_ascii_decimal_digits (ds : list N) :
  Forall (fun d => (d < 10)%N) ds ->
  to_ascii_decimal (map (N.add 48) ds) = map (N.add 48) ds.
Proof.
  intros H. unfold to_ascii_decimal. rewrite map_map. apply map_ext_in.
  intros x Hx. rewrite Forall_forall in H. specialize (H x Hx).
  destruct (N.ltb_spec (48 + x)%N 127%N); [reflexivity | lia].
Qed.

Lemma digits_literal (d : N) (ds : list N) :
  Forall (fun d => (d < 10)%N) (d :: ds) ->
  int_literal_with (map (N.add 48) (d :: ds)) (base10 (d :: ds)) (d :: ds).
Proof.
  intros H. exists [], [], (map (N.add 48) (d :: ds)), [].
  rewrite (to_ascii_decimal_digits H), app_nil_r.
  repeat split; auto using digits_are_groups.
Qed.

End IntLiteral.

(** C5. For a value under a key with target [int] or [integer]: commas and
    dollar signs are deleted first; an empty remainder gives [None]; the
    integer [z] is the result exactly when the remainder is a valid literal
    of [z] (decimal digits read in base 10, single underscores between
    digits, a sign in front, blanks around) with no more digits than the
    interpreter's limit allows; [ValueError] is raised exactly when the
    remainder is non-empty and not such a literal, and so also for a valid
    literal that has more digits than the limit.  The record that
    [apply_coercions_1] returns holds that value under the key, and
    [apply_coercions_1] raises when the value does.  A remainder of decimal
    digits is a valid literal of the number they denote; the cell [$1,234]
    gives the integer 1234. *)
Theorem int_coercion {rt : PyRuntime} (obj : dict pystr)
  (coercions : coercion_spec) (key val tag : pystr) :
  NoDup (keys obj) ->
  In (key, val) obj ->
  coercions_get coercions key = Some tag ->
  tag = u "int" \/ tag = u "integer" ->
  let digits := re_sub_class comma_dollar [] val in
  digits = filter (fun c => negb (comma_dollar c)) val
  /\ (digits = [] -> coerce_value (Some tag) val = ([], Return VNone))
  /\ (forall z,
        coerce_value (Some tag) val = ([], Return (VInt z))
        <-> digits <> [] /\ int_literal_in_limit digits z)
  /\ ((exists log e, coerce_value (Some tag) val = (log, Raise e))
      <-> digits <> [] /\ ~ (exists z, int_literal_in_limit digits z))
  /\ (digits <> [] -> ~ (exists z, int_literal_in_limit digits z) ->
        coerce_value (Some tag) val = ([], Raise ValueError)
        /\ exists log e, apply_coercions_1 obj coercions = (log, Raise e))
  /\ (forall z ds,
        int_literal_with digits z ds -> over_digit_limit (length ds) ->
        coerce_value (Some tag) val = ([], Raise ValueError))
  /\ (forall log result,
        apply_coercions_1 obj coercions = (log, Return result) ->
        exists w, coerce_value (Some tag) val = ([], Return w)
                  /\ dict_get result key = Some w)
  /\ (forall d ds,
        Forall (fun d => (d < 10)%N) (d :: ds) ->
        int_literal_with (map (N.add 48) (d :: ds)) (base10 (d :: ds))
          (d :: ds))
  /\ coerce_value (Some (u "int")) (u "$1,234") = ([], Return (VInt 1234)).
Proof.
  intros Hnd Hin Hget Htag digits.
  pose proof (coerce_value_int val Htag) as Hc. cbv zeta in Hc.
  fold digits in Hc.
  assert (Hnone : int_of_str digits = None
                  <-> ~ (exists z, int_literal_in_limit digits z)).
  { split.
    - intros E (z & Hz). apply int_of_str_literal in Hz. congruence.
    - intros H. destruct (int_of_str digits) as [z|] eqn:E; [|reflexivity].
      exfalso. apply H. exists z. now apply int_of_str_literal. }
  split; [apply re_sub_class_delete|].
  split; [intros E; rewrite Hc, E; reflexivity|].
  split.
  { intros z. rewrite <- int_of_str_literal, Hc. split.
    - destruct (truthy digits) eqn:Ht; [|discriminate].
      apply truthy_true in Ht.
      destruct (int_of_str digits) as [z'|]; [|discriminate].
      intros [= ->]. now split.
    - intros [Hne Hz]. apply truthy_true in Hne. now rewrite Hne, Hz. }
  split.
  { split.
    - intros (log & e & E). rewrite Hc in E.
      destruct (truthy digits) eqn:Ht; [|discriminate].
      apply truthy_true in Ht. split; [exact Ht|]. apply Hnone.
      destruct (int_of_str digits); [discriminate | reflexivity].
    - intros [Hne E]. apply truthy_true in Hne. apply Hnone in E.
      rewrite Hc, Hne, E. eauto. }
  split.
  { intros Hne E. apply truthy_true in Hne. apply Hnone in E.
    assert (Hr : coerce_value (Some tag) val = ([], Raise ValueError))
      by now rewrite Hc, Hne, E.
    split; [exact Hr|].
    apply (@coerce_items_raise rt coercions obj [] key val [] ValueError Hin).
    now rewrite Hget. }
  split.
  { intros z ds Hl Hover. apply digits_capped_spec in Hover.
    pose proof (int_of_str_of_literal Hl) as E. rewrite Hover in E.
    pose proof (int_literal_nonempty Hl) as Hne.
    apply truthy_true in Hne. now rewrite Hc, Hne, E. }
  split.
  { intros log result H.
    destruct (@coerce_items_lookup rt coercions obj [] result log key val
                Hnd H Hin) as (l & w & Hw & Hres & _).
    rewrite Hget in Hw. exists w. split; [|exact Hres].
    rewrite Hc in Hw |- *. destruct (truthy digits); [|congruence].
    destruct (int_of_str digits); congruence. }
  split; [|reflexivity].
  intros d ds Hds. now apply digits_literal.
Qed.

Lemma int_coercion_witness :
  apply_coercions_1 (rt := ascii_runtime)
    [(u "name", u "Bob"); (u "amount", u "$1,234")]
    [(u "amount", Some (u "int"))]
  = ([], Return [(u "name", VStr (u "Bob")); (u "amount", VInt 1234)])
  /\ coerce_value (rt := ascii_runtime) (Some (u "int")) (u "$1,234")
     = ([], Return (VInt 1234)).
Proof.
  split; [reflexivity|].
  refine (proj2 (proj2 (proj2 (proj2 (proj2 (proj2 (proj2 (proj2
    (@int_coercion ascii_runtime
       [(u "name", u "Bob"); (u "amount", u "$1,234")]
       [(u "amount", Some (u "int"))]
       (u "amount") (u "$1,234") (u "int") _ _ _ _))))))))).
  - repeat constructor; simpl; intuition discriminate.
  - simpl. auto.
  - reflexivity.
  - now left.
Defined.

(** C5, as stated, fails where the interpreter limits the digits of an
    integer read from text (4300 by default): the text of 4301 nines is a
    valid base-10 literal, and non-empty, and [ValueError] is raised. *)
Lemma oversized_literal_raises :
  let s := repeat 57%N 4301 in
  re_sub_class comma_dollar [] s = s
  /\ s <> []
  /\ int_literal (rt := ascii_runtime) s (base10 (repeat 9%N 4301))
  /\ coerce_value (rt := ascii_runtime) (Some (u "int")) s
     = ([], Raise ValueError).
Proof.
  cbv zeta.
  assert (Hds : Forall (fun d => (d < 10)%N) (repeat 9%N 4301)).
  { apply Forall_forall. intros d Hd. apply repeat_spec in Hd. subst d. lia. }
  assert (E : repeat 57%N 4301 = map (N.add 48) (repeat 9%N 4301))
    by (vm_compute; reflexivity).
  split; [vm_compute; reflexivity|]. split; [discriminate|].
  split; [|vm_compute; reflexivity].
  exists (repeat 9%N 4301). rewrite E.
  exact (@digits_literal ascii_runtime 9%N (repeat 9%N 4300) Hds).
Qed.

(** C9. For a value under a key whose target is none of the six known tags:
    the value stored is the cell itself, one line naming the unknown target
    goes to the error stream, and no exception is raised for it.  The record
    that [apply_coercions_1] returns holds the cell under the key and the
    line is on its error stream; if no other item raises,
    [apply_coercions_1] returns. *)
Theorem unknown_target_passes_through {rt : PyRuntime} (obj : dict pystr)
  (coercions : coercion_spec) (key val tag : pystr) :
  NoDup (keys obj) ->
  In (key, val) obj ->
  coercions_get coercions key = Some tag ->
  ~ In tag [u "int"; u "integer"; u "float"; u "date"; u "datetime";
            u "timestamp"] ->
  coerce_value (coercions_get coercions key) val =
    ([u "Unknown coercion target " ++ repr tag ++ nl], Return (VStr val))
  /\ (forall log result,
        apply_coercions_1 obj coercions = (log, Return result) ->
        dict_get result key = Some (VStr val)
        /\ In (u "Unknown coercion target " ++ repr tag ++ nl) log)
  /\ ((forall k v, In (k, v) obj -> k <> key ->
         exists l w, coerce_value (coercions_get coercions k) v = (l, Return w))
      -> exists log result,
           apply_coercions_1 obj coercions = (log, Return result)).
Proof.
  intros Hnd Hin Hget Htag.
  pose proof (coerce_value_unknown val Htag) as Hc. rewrite <- Hget in Hc.
  split; [exact Hc|]. split.
  - intros log result H.
    destruct (@coerce_items_lookup rt coercions obj [] result log key val
                Hnd H Hin) as (l & w & Hw & Hres & Hl).
    rewrite Hc in Hw. injection Hw as <- <-.
    split; [exact Hres | apply Hl; now left].
  - intros Hothers. apply coerce_items_return.
    intros k v Hkv.
    destruct (list_eq_dec N.eq_dec k key) as [-> | Hk]; [|now apply Hothers].
    rewrite (@dict_items_functional _ obj key v val Hnd Hkv Hin).
    rewrite Hc. eauto.
Qed.

Lemma unknown_target_passes_through_witness :
  apply_coercions_1 (rt := ascii_runtime)
    [(u "d", u "x")] [(u "d", Some (u "money"))]
  = ([u "Unknown coercion target 'money'" ++ nl],
     Return [(u "d", VStr (u "x"))])
  /\ coerce_value (rt := ascii_runtime) (Some (u "money")) (u "x")
     = ([u "Unknown coercion target 'money'" ++ nl], Return (VStr (u "x"))).
Proof.
  split; [reflexivity|].
  refine (proj1
    (@unknown_target_passes_through ascii_runtime
       [(u "d", u "x")] [(u "d", Some (u "money"))]
       (u "d") (u "x") (u "money") _ _ _ _)).
  - repeat constructor; simpl; intuition.
  - simpl. auto.
  - reflexivity.
  - simpl. intuition discriminate.
Defined.

(** C1 (the code departs from it). For a key with target [date], [datetime]
    or [timestamp] and a cell that is empty after trimming, the parse is
    skipped and the value is [None], but [strftime] is then looked up on
    that [None]: [apply_coercions_1] raises [AttributeError] and returns no
    record. *)
Theorem empty_date_raises {rt : PyRuntime} :
  apply_coercions_1 [(u "d", u "")] [(u "d", Some (u "date"))]
    = ([], Raise AttributeError)
  /\ apply_coercions_1 [(u "d", u "  ")] [(u "d", Some (u "date"))]
    = ([], Raise AttributeError)
  /\ apply_coercions_1 [(u "d", u "")] [(u "d", Some (u "datetime"))]
    = ([], Raise AttributeError)
  /\ apply_coercions_1 [(u "d", u "")] [(u "d", Some (u "timestamp"))]
    = ([], Raise AttributeError)
  /\ apply_coercions_1 [(u "n", u "")] [(u "n", Some (u "int"))]
    = ([], Return [(u "n", VNone)]).
Proof. repeat split. Qed.

(** ** RecordBuilder *)

(** On ASCII headers the keys do not depend on the runtime. *)
Lemma headers_to_keys_ascii {rt : PyRuntime} (headers : list pystr) :
  forallb (forallb is_ascii) headers = true ->
  headers_to_keys headers =
  map (fun header =>
         re_sub_plus (fun c => negb (key_char c)) (u "_") false
           (map ascii_lower header))
    headers.
Proof.
  intros H. unfold headers_to_keys. apply map_ext_in. intros header Hin.
  rewrite forallb_forall in H. now rewrite str_lower_ascii by auto.
Qed.

Lemma dict_get_In {V} (d : dict V) (k : pystr) (v : V) :
  NoDup (keys d) -> (dict_get d k = Some v <-> In (k, v) d).
Proof.
  induction d as [|[k0 v0] d IH]; simpl; intros Hnd.
  - split; [discriminate | tauto].
  - inversion Hnd as [|? ? Hk0 Hnd']; subst.
    destruct (str_eqb k0 k) eqn:E.
    + apply str_eqb_eq in E. subst k0. split.
      * intros [= ->]. now left.
      * intros [[= ->] | Hin]; [reflexivity|].
        exfalso. apply Hk0. unfold keys. now apply (in_map fst) in Hin.
    + apply str_eqb_neq in E. rewrite (IH Hnd'). split; [tauto|].
      intros [[= -> ->] | Hin]; [congruence | exact Hin].
Qed.

Lemma dict_get_some_key {V} (d : dict V) (k : pystr) (v : V) :
  dict_get d k = Some v -> In k (keys d).
Proof.
  induction d as [|[k0 v0] d IH]; simpl; [discriminate|].
  destruct (str_eqb k0 k) eqn:E; [|auto].
  apply str_eqb_eq in E. auto.
Qed.

Lemma dict_get_key_some {V} (d : dict V) (k : pystr) :
  In k (keys d) -> exists v, dict_get d k = Some v.
Proof.
  intros Hin. destruct (dict_get d k) as [v|] eqn:E; [eauto|].
  apply dict_get_none in E. tauto.
Qed.

(** A lookup among pairs read back to front finds the last pair with the
    key. *)
Lemma dict_get_rev_last {V} (pairs : list (pystr * V)) (k : pystr) (v : V) :
  dict_get (rev pairs) k = Some v ->
  exists i,
    nth_error pairs i = Some (k, v)
    /\ forall j p, i < j -> nth_error pairs j = Some p -> fst p <> k.
Proof.
  induction pairs as [|[k0 v0] pairs IH] using rev_ind; [discriminate|].
  rewrite rev_app_distr. simpl.
  destruct (str_eqb k0 k) eqn:E.
  - apply str_eqb_eq in E. subst k0. intros [= ->].
    exists (length pairs). split.
    + rewrite nth_error_app2 by lia. now rewrite Nat.sub_diag.
    + intros j p Hj Hp.
      assert (Hlt : j < length (pairs ++ [(k, v)]))
        by (apply nth_error_Some; congruence).
      rewrite length_app in Hlt. simpl in Hlt. lia.
  - apply str_eqb_neq in E. intros H. destruct (IH H) as (i & Hi & Hlast).
    assert (Hlt : i < length pairs) by (apply nth_error_Some; congruence).
    exists i. split; [rewrite nth_error_app1 by lia; exact Hi|].
    intros j p Hj Hp. destruct (Nat.lt_ge_cases j (length pairs)) as [Hjl | Hjl].
    + rewrite nth_error_app1 in Hp by lia. eauto.
    + rewrite nth_error_app2 in Hp by lia.
      destruct (j - length pairs) as [|[|n]]; simpl in Hp; try discriminate.
      injection Hp as <-. exact E.
Qed.

(** The record of a row holds, under a key, the cell that is zipped with
    the key. *)
Lemma zipped_cell_get (ks row : list pystr) (k cell : pystr) :
  dict_get (dict_of (zip ks row)) k = Some cell <-> zipped_cell ks row k cell.
Proof.
  split.
  - rewrite dict_of_get. intros H.
    apply dict_get_rev_last in H as (i & Hi & Hlast).
    apply zip_nth_error in Hi as [Hk Hc].
    exists i. split; [exact Hk|]. split; [exact Hc|].
    intros j Hij Hj Hkj.
    destruct (nth_error row j) as [c|] eqn:Hc';
      [|apply nth_error_None in Hc'; lia].
    apply (Hlast j (k, c) Hij); [|reflexivity].
    apply zip_nth_error. now split.
  - intros (i & Hk & Hc & Hlast).
    apply (@dict_of_last _ (zip ks row) i).
    + apply zip_nth_error. now split.
    + intros j [k' c] Hij Hp Hk'. simpl in Hk'. subst k'.
      apply zip_nth_error in Hp as [Hkj Hcj].
      apply (Hlast j Hij); [|exact Hkj].
      apply nth_error_Some. congruence.
Qed.

(** The keys of the record of a row are the keys at the positions that the
    row has. *)
Lemma zipped_keys (ks row : list pystr) (k : pystr) :
  In k (keys (dict_of (zip ks row)))
  <-> exists i, i < length row /\ nth_error ks i = Some k.
Proof.
  split.
  - intros Hin. apply dict_get_key_some in Hin as (cell & Hcell).
    apply zipped_cell_get in Hcell as (i & Hk & Hc & _).
    exists i. split; [|exact Hk]. apply nth_error_Some. congruence.
  - intros (i & Hi & Hk).
    destruct (nth_error row i) as [c|] eqn:Hc;
      [|apply nth_error_None in Hc; lia].
    assert (Hin : In (k, c) (zip ks row)).
    { apply (nth_error_In _ i). apply zip_nth_error. now split. }
    assert (Hkey : In k (keys (rev (zip ks row)))).
    { unfold keys. apply in_map_iff. exists (k, c).
      split; [reflexivity | now apply in_rev in Hin]. }
    apply dict_get_key_some in Hkey as (v & Hv).
    rewrite <- dict_of_get in Hv. exact (dict_get_some_key _ _ Hv).
Qed.

Lemma Forall2_map_left {A B C} (f : A -> B) (R : B -> C -> Prop)
  (l : list A) (l' : list C) :
  Forall2 R (map f l) l' -> Forall2 (fun a c => R (f a) c) l l'.
Proof.
  revert l'. induction l as [|a l IH]; intros l' H; simpl in H;
    inversion H; subst; constructor; auto.
Qed.

Lemma Forall2_map_self {A B} (f : A -> B) (R : A -> B -> Prop) (l : list A) :
  (forall a, In a l -> R a (f a)) -> Forall2 R l (map f l).
Proof.
  induction l as [|a l IH]; intros H; simpl; constructor.
  - apply H. now left.
  - apply IH. intros a' Ha'. apply H. now right.
Qed.

Section CoercerBatch.
Context {rt : PyRuntime}.
Variable coercions : coercion_spec.

Lemma apply_coercions_return (data : list (dict pystr)) :
  forall (log : list pystr) (rs : list (dict pyval)),
    apply_coercions data coercions = (log, Return rs) ->
    Forall2 (fun obj r => snd (apply_coercions_1 obj coercions) = Return r)
      data rs
    /\ log = flat_map (fun obj => fst (apply_coercions_1 obj coercions)) data.
Proof.
  induction data as [|obj data IH]; intros log rs; simpl.
  - intros [= <- <-]. split; [constructor | reflexivity].
  - intros H. apply bind_return in H as (l & r & l' & Hr & H & ->).
    apply bind_return in H as (l1 & rs' & l2 & Hrs & H & ->).
    injection H as <- <-. destruct (IH _ _ Hrs) as [IH1 ->].
    rewrite Hr. simpl. rewrite app_nil_r. split; [|reflexivity].
    constructor; [now rewrite Hr | exact IH1].
Qed.

Lemma apply_coercions_raise (data : list (dict pystr)) :
  forall (obj : dict pystr) (l : list pystr) (e : exn),
    In obj data ->
    apply_coercions_1 obj coercions = (l, Raise e) ->
    exists log e', apply_coercions data coercions = (log, Raise e').
Proof.
  induction data as [|obj0 data IH]; intros obj l e Hin He; simpl in *;
    [tauto|].
  destruct (apply_coercions_1 obj0 coercions) as [l0 [r0|e0]] eqn:E0.
  - destruct Hin as [-> | Hin]; [congruence|].
    destruct (IH _ _ _ Hin He) as (log & e' & H).
    simpl. rewrite H. simpl. eauto.
  - simpl. eauto.
Qed.

End CoercerBatch.

Section RecordFacts.
Context {rt : PyRuntime}.

Lemma uncoerced_get (obj : dict pystr) (k : pystr) :
  dict_get (uncoerced obj) k = option_map VStr (dict_get obj k).
Proof.
  induction obj as [|[k0 v0] obj IH]; simpl; [reflexivity|].
  destruct (str_eqb k0 k); [reflexivity | exact IH].
Qed.

Lemma uncoerced_keys_eq (obj : dict pystr) : keys (uncoerced obj) = keys obj.
Proof. unfold keys, uncoerced. rewrite map_map. reflexivity. Qed.

(** What [apply_coercions_1] returns for a record holds, under each key of
    the record and under no other, the coerced cell. *)
Lemma apply_coercions_1_get (coercions : coercion_spec) (obj : dict pystr)
  (log : list pystr) (r : dict pyval) :
  NoDup (keys obj) ->
  apply_coercions_1 obj coercions = (log, Return r) ->
  (forall k v,
     dict_get r k = Some v
     <-> exists cell l,
           dict_get obj k = Some cell
           /\ coerce_value (coercions_get coercions k) cell = (l, Return v))
  /\ (forall k, In k (keys r) <-> In k (keys obj)).
Proof.
  intros Hnd H.
  assert (Hfwd : forall k cell,
             dict_get obj k = Some cell ->
             exists l w,
               coerce_value (coercions_get coercions k) cell = (l, Return w)
               /\ dict_get r k = Some w).
  { intros k cell Hc. apply (@dict_get_In _ obj k cell Hnd) in Hc.
    destruct (@coerce_items_lookup rt coercions obj [] r log k cell Hnd H Hc)
      as (l & w & Hw & Hres & _). eauto. }
  assert (Hback : forall k, dict_get obj k = None -> dict_get r k = None).
  { intros k Hn. apply dict_get_none in Hn.
    now rewrite (@coerce_items_other rt coercions obj [] r log k H Hn). }
  split.
  - intros k v. split.
    + intros Hr. destruct (dict_get obj k) as [cell|] eqn:Hc.
      * destruct (Hfwd _ _ Hc) as (l & w & Hw & Hres).
        exists cell, l. split; [reflexivity|]. congruence.
      * rewrite (Hback _ Hc) in Hr. discriminate.
    + intros (cell & l & Hc & Hv).
      destruct (Hfwd _ _ Hc) as (l' & w & Hw & Hres). congruence.
  - intros k. split.
    + intros Hin. apply dict_get_key_some in Hin as (v & Hv).
      destruct (dict_get obj k) as [cell|] eqn:Hc.
      * exact (dict_get_some_key _ _ Hc).
      * rewrite (Hback _ Hc) in Hv. discriminate.
    + intros Hin. apply dict_get_key_some in Hin as (cell & Hc).
      destruct (Hfwd _ _ Hc) as (l & w & _ & Hres).
      exact (dict_get_some_key _ _ Hres).
Qed.

Lemma apply_coercions_1_returns (coercions : coercion_spec)
  (obj : dict pystr) :
  NoDup (keys obj) ->
  (forall k cell,
     dict_get obj k = Some cell ->
     exists l v,
       coerce_value (coercions_get coercions k) cell = (l, Return v)) ->
  exists log r, apply_coercions_1 obj coercions = (log, Return r).
Proof.
  intros Hnd Hall. unfold apply_coercions_1.
  apply (@coerce_items_return rt coercions obj []).
  intros k val Hin. apply (Hall k val).
  now apply (@dict_get_In _ obj k val Hnd).
Qed.

Lemma apply_coercions_returns (coercions : coercion_spec)
  (data : list (dict pystr)) :
  (forall obj, In obj data ->
     exists l r, apply_coercions_1 obj coercions = (l, Return r)) ->
  exists log rs, apply_coercions data coercions = (log, Return rs).
Proof.
  induction data as [|obj data IH]; intros Hall; simpl.
  - unfold ret. eauto.
  - destruct (Hall obj (or_introl eq_refl)) as (l & r & ->).
    destruct IH as (log & rs & ->).
    { intros obj' Hin. apply Hall. now right. }
    simpl. eauto.
Qed.

(** [read_worksheet] on a worksheet with a header row, without coercions
    and with them. *)
Lemma read_worksheet_plain (sheet : pystr) (headers : list pystr)
  (rows : list (list pystr)) (coercions : option coercion_spec) :
  coercions_truthy coercions = false ->
  read_worksheet {| ws_title := sheet; ws_rows := headers :: rows |} coercions
  = ([], Return
           {| title := sheet;
              data :=
                map (fun row =>
                       uncoerced
                         (dict_of
                            (zip (headers_to_keys (chop_at_blank headers))
                               row)))
                  (drop_empty_rows rows) |}).
Proof.
  intros Hc. unfold read_worksheet, _read_worksheet.
  destruct coercions as [[|c0 cs]|]; try discriminate;
    simpl; now rewrite map_map.
Qed.

Lemma read_worksheet_coerced (sheet : pystr) (headers : list pystr)
  (rows : list (list pystr)) (c0 : pystr * option pystr)
  (cs : coercion_spec) :
  read_worksheet {| ws_title := sheet; ws_rows := headers :: rows |}
    (Some (c0 :: cs))
  = match apply_coercions
            (map (fun row =>
                    dict_of
                      (zip (headers_to_keys (chop_at_blank headers)) row))
               (drop_empty_rows rows)) (c0 :: cs)
    with
    | (log, Return rs) => (log, Return {| title := sheet; data := rs |})
    | (log, Raise e) => (log, Raise e)
    end.
Proof.
  unfold read_worksheet, _read_worksheet.
  cbn [ws_rows ws_title bind ret raw_headers raw_data raw_title
       coercions_truthy app].
  destruct (apply_coercions _ (c0 :: cs)) as [log [rs|e]]; [|reflexivity].
  cbn [bind ret]. now rewrite app_nil_r.
Qed.

End RecordFacts.

(** C6. [read_worksheet] turns each retained row into a record by zipping
    the normalised keys with the cells of the row, position by position,
    stopping at the shorter of the two: the record holds a value under a key
    exactly when the key is zipped with a cell, the value being the cell as
    its target coerces it (the cell itself, as text, without a target), and
    its keys are the keys at the positions that the row has, so that cells
    beyond the keys and keys beyond the row take no part.  The records come
    in the order of the retained rows.  A row that is longer or shorter than
    the keys raises nothing: [read_worksheet] returns whenever every zipped
    cell can be coerced, and always when there are no coercions.  Headers
    [Name], [Amount] and an empty cell, with the row [Bob], [$1,200], [extra]
    and the coercion of [amount] to [int], give the record with [name] =
    [Bob] and [amount] = 1200. *)
Theorem rows_zipped_with_keys {rt : PyRuntime} (sheet : pystr)
  (headers : list pystr) (rows : list (list pystr))
  (coercions : option coercion_spec) :
  let ws := {| ws_title := sheet; ws_rows := headers :: rows |} in
  let ks := headers_to_keys (chop_at_blank headers) in
  let target := fun k =>
    match coercions with Some c => coercions_get c k | None => None end in
  (forall log p,
     read_worksheet ws coercions = (log, Return p) ->
     Forall2
       (fun row r =>
          (forall k v,
             dict_get r k = Some v
             <-> exists cell l,
                   zipped_cell ks row k cell
                   /\ coerce_value (target k) cell = (l, Return v))
          /\ (forall k,
                In k (keys r)
                <-> exists i, i < length row /\ nth_error ks i = Some k))
       (drop_empty_rows rows) (data p))
  /\ ((forall row k cell,
         In row (drop_empty_rows rows) -> zipped_cell ks row k cell ->
         exists l v, coerce_value (target k) cell = (l, Return v)) ->
      exists log p, read_worksheet ws coercions = (log, Return p))
  /\ (coercions_truthy coercions = false ->
      exists p,
        read_worksheet ws coercions = ([], Return p)
        /\ Forall2
             (fun row r =>
                forall k cell,
                  dict_get r k = Some (VStr cell) <-> zipped_cell ks row k cell)
             (drop_empty_rows rows) (data p))
  /\ read_worksheet
       {| ws_title := u "Sheet1";
          ws_rows := [[u "Name"; u "Amount"; u ""];
                      [u "Bob"; u "$1,200"; u "extra"]] |}
       (Some [(u "amount", Some (u "int"))])
     = ([], Return
              {| title := u "Sheet1";
                 data := [[(u "name", VStr (u "Bob"));
                           (u "amount", VInt 1200)]] |}).
Proof.
  intros ws ks target. subst ws.
  assert (Hplain : forall row k v,
             dict_get (uncoerced (dict_of (zip ks row))) k = Some v
             <-> exists cell l,
                   zipped_cell ks row k cell
                   /\ coerce_value None cell = (l, Return v)).
  { intros row k v. rewrite uncoerced_get. split.
    - destruct (dict_get (dict_of (zip ks row)) k) as [cell|] eqn:E;
        [|discriminate].
      intros [= <-]. exists cell, []. split; [|reflexivity].
      now apply zipped_cell_get.
    - intros (cell & l & Hz & Hv). apply zipped_cell_get in Hz.
      rewrite Hz. injection Hv as _ <-. reflexivity. }
  assert (Hkeys : forall row k,
             In k (keys (uncoerced (dict_of (zip ks row))))
             <-> exists i, i < length row /\ nth_error ks i = Some k).
  { intros row k. rewrite uncoerced_keys_eq. apply zipped_keys. }
  assert (Hfalsy : coercions_truthy coercions = false ->
                   forall k, target k = None).
  { subst target. destruct coercions as [[|c0 cs]|]; try discriminate;
      reflexivity. }
  split; [|split; [|split]].
  - intros log p H.
    destruct (coercions_truthy coercions) eqn:Ht.
    + destruct coercions as [[|c0 cs]|]; try discriminate.
      rewrite read_worksheet_coerced in H. fold ks in H.
      destruct (apply_coercions _ (c0 :: cs)) as [l [rs|e]] eqn:E;
        [|discriminate].
      injection H as _ <-. cbn [data].
      apply apply_coercions_return in E as [H2 _].
      apply Forall2_map_left in H2. revert H2. apply Forall2_impl.
      intros row r Hr.
      destruct (apply_coercions_1 (dict_of (zip ks row)) (c0 :: cs))
        as [l' o] eqn:E1.
      simpl in Hr. subst o.
      destruct (@apply_coercions_1_get rt (c0 :: cs) _ l' r
                  (dict_of_NoDup (zip ks row)) E1)
        as [Hget Hin].
      split.
      * intros k v. rewrite Hget. subst target. cbv beta.
        split; intros (cell & l0 & Hz & Hv); exists cell, l0;
          (split; [now apply zipped_cell_get | exact Hv]).
      * intros k. rewrite Hin. apply zipped_keys.
    + rewrite (read_worksheet_plain _ _ _ _ Ht) in H.
      injection H as _ <-. cbn [data]. fold ks.
      apply Forall2_map_self. intros row _. split.
      * intros k v. rewrite (Hfalsy eq_refl k). apply Hplain.
      * intros k. apply Hkeys.
  - intros Hall. destruct (coercions_truthy coercions) eqn:Ht.
    + destruct coercions as [[|c0 cs]|]; try discriminate.
      rewrite read_worksheet_coerced. fold ks.
      destruct (@apply_coercions_returns rt (c0 :: cs)
                  (map (fun row => dict_of (zip ks row))
                     (drop_empty_rows rows))) as (log & rs & ->); [|eauto].
      intros obj Hobj. apply in_map_iff in Hobj as (row & <- & Hrow).
      apply apply_coercions_1_returns; [apply dict_of_NoDup|].
      intros k cell Hc. apply zipped_cell_get in Hc.
      exact (Hall row k cell Hrow Hc).
    + rewrite (read_worksheet_plain _ _ _ _ Ht). eauto.
  - intros Ht. rewrite (read_worksheet_plain _ _ _ _ Ht). fold ks.
    eexists. split; [reflexivity|]. cbn [data].
    apply Forall2_map_self. intros row _ k cell.
    rewrite uncoerced_get, <- zipped_cell_get.
    destruct (dict_get (dict_of (zip ks row)) k) as [c|]; simpl;
      split; congruence.
  - unfold read_worksheet, _read_worksheet.
    cbn [ws_rows ws_title bind ret raw_headers raw_data raw_title].
    change (chop_at_blank [u "Name"; u "Amount"; u ""])
      with [u "Name"; u "Amount"].
    rewrite headers_to_keys_ascii by reflexivity.
    reflexivity.
Qed.

Lemma rows_zipped_with_keys_witness :
  exists cell l,
    zipped_cell [u "name"; u "amount"] [u "Bob"; u "$1,200"; u "extra"]
      (u "amount") cell
    /\ coerce_value (rt := ascii_runtime) (Some (u "int")) cell
       = (l, Return (VInt 1200)).
Proof.
  pose proof
    (proj1 (@rows_zipped_with_keys ascii_runtime (u "Sheet1")
              [u "Name"; u "Amount"; u ""] [[u "Bob"; u "$1,200"; u "extra"]]
              (Some [(u "amount", Some (u "int"))]))
       [] {| title := u "Sheet1";
             data := [[(u "name", VStr (u "Bob"));
                       (u "amount", VInt 1200)]] |}
       eq_refl) as H.
  apply Forall2_cons_iff in H as [[H _] _].
  exact (proj1 (H (u "amount") (VInt 1200)) eq_refl).
Defined.

(** C8. When two positions of a row carry the same key, the record holds the
    key once, with the cell of the later position: the cell at the last
    position with that key is what a lookup of the key gives.  The headers
    [A B] and [a-b] both give the key [a_b], and the record of a row holds
    the second cell under it. *)
Theorem later_header_overwrites {rt : PyRuntime} (ks row : list pystr)
  (i j : nat) (k vi vj : pystr) :
  i < j ->
  nth_error ks i = Some k -> nth_error row i = Some vi ->
  nth_error ks j = Some k -> nth_error row j = Some vj ->
  (forall j', j < j' -> j' < length row -> nth_error ks j' <> Some k) ->
  dict_get (dict_of (zip ks row)) k = Some vj
  /\ NoDup (keys (dict_of (zip ks row)))
  /\ headers_to_keys [u "A B"; u "a-b"] = [u "a_b"; u "a_b"]
  /\ (forall sheet v1 v2,
        truthy (strip v1) = true ->
        read_worksheet
          {| ws_title := sheet; ws_rows := [[u "A B"; u "a-b"]; [v1; v2]] |}
          None
        = ([], Return {| title := sheet;
                         data := [[(u "a_b", VStr v2)]] |})).
Proof.
  intros Hij Hki Hvi Hkj Hvj Hlast.
  assert (Hkeys : headers_to_keys [u "A B"; u "a-b"] = [u "a_b"; u "a_b"])
    by now rewrite headers_to_keys_ascii.
  split; [|split; [apply dict_of_NoDup | split; [exact Hkeys|]]].
  - apply (@dict_of_last _ (zip ks row) j k vj).
    + now apply zip_nth_error.
    + intros j' [k' v'] Hj' Hp Hk. simpl in Hk. subst k'.
      apply zip_nth_error in Hp as [Hp1 Hp2].
      apply (Hlast j' Hj'); [|exact Hp1].
      apply nth_error_Some. congruence.
  - intros sheet v1 v2 Hv1.
    unfold read_worksheet, _read_worksheet.
    cbn [ws_rows ws_title bind ret raw_headers raw_data raw_title].
    change (chop_at_blank [u "A B"; u "a-b"]) with [u "A B"; u "a-b"].
    rewrite Hkeys. unfold drop_empty_rows. simpl. rewrite Hv1. simpl.
    reflexivity.
Qed.

Lemma later_header_overwrites_witness :
  dict_get (dict_of (zip [u "a_b"; u "a_b"] [u "1"; u "2"])) (u "a_b")
  = Some (u "2").
Proof.
  refine (proj1
    (@later_header_overwrites ascii_runtime [u "a_b"; u "a_b"] [u "1"; u "2"]
       0 1 (u "a_b") (u "1") (u "2") _ _ _ _ _ _)).
  - lia.
  - reflexivity.
  - reflexivity.
  - reflexivity.
  - reflexivity.
  - intros j' H1 H2. simpl in H2. lia.
Defined.

(** ** StatementBuilder *)

Lemma ends_with_app (suffix s : pystr) : ends_with suffix (s ++ suffix) = true.
Proof.
  induction s as [|c s IH]; simpl.
  - destruct suffix; simpl; now rewrite ?str_eqb_refl.
  - now destruct (str_eqb (c :: s ++ suffix) suffix).
Qed.

Lemma rstrip_newline (s : pystr) (c : char) :
  isspace c = false -> rstrip (s ++ [c] ++ nl) = s ++ [c].
Proof.
  intros Hc. unfold rstrip. rewrite !rev_app_distr. simpl.
  rewrite Hc. simpl. now rewrite rev_involutive.
Qed.

(** C3 (as the code has it). With no record in [data] the loop writes
    nothing: the insert statement is its three header lines and stops at the
    keyword that announces the rows.  No row and no comma follow the
    keyword; the statement is emitted all the same, not left out. *)
Theorem build_insert_rows_no_rows {rt : PyRuntime} (schema table sheet : pystr) :
  let stmt := build_insert_rows schema table {| title := sheet; data := [] |} in
  stmt = u "INSERT INTO " ++ schema ++ u "." ++ table ++ nl
         ++ u "SELECT column1, column2, parse_json(column3)" ++ nl
         ++ u "FROM VALUES" ++ nl
  /\ insert_rows sheet 0 0 [] = []
  /\ stmt <> []
  /\ ends_with (u "VALUES") (rstrip stmt) = true.
Proof.
  cbv zeta. unfold build_insert_rows, insert_header. simpl data. simpl title.
  simpl insert_rows. rewrite !app_nil_r.
  split; [reflexivity|]. split; [reflexivity|]. split; [discriminate|].
  change (u "FROM VALUES") with (u "FROM " ++ u "VALUE" ++ [83%N]).
  rewrite !app_assoc. rewrite <- (app_assoc _ [83%N] nl).
  rewrite rstrip_newline by reflexivity.
  rewrite <- !app_assoc.
  change (u "VALUE" ++ [83%N]) with (u "VALUES").
  rewrite !app_assoc. apply ends_with_app.
Qed.

(** C3, as stated, fails: the zero-row case is not handled, the statement
    for an empty [data] stops at the keyword [VALUES]. *)
Lemma zero_rows_not_handled :
  ~ zero_rows_handled
      (build_insert_rows (rt := ascii_runtime) (u "s") (u "t")
         {| title := u "T"; data := [] |}).
Proof.
  intros [H | H]; [discriminate H|].
  vm_compute in H. discriminate H.
Qed.

(** *** Escaped text *)

Lemma escapes_closed_app (q : char) (a b : pystr) :
  escapes_closed q a = true -> escapes_closed q b = true ->
  escapes_closed q (a ++ b) = true.
Proof.
  intros Ha Hb. revert Ha. induction a as [|c|c d t IH1 IH2] using pystr_ind2.
  - auto.
  - simpl. destruct (c =? 92)%N; [discriminate|].
    destruct (c =? q)%N; [discriminate | auto].
  - simpl. destruct (c =? 92)%N; [exact IH1|].
    destruct (c =? q)%N; [discriminate | exact IH2].
Qed.

Lemma plain_char_neq (c q : char) :
  plain_char c = true -> plain_char q = false -> (c =? q)%N = false.
Proof.
  intros Hc Hq. destruct (N.eqb_spec c q); [congruence | reflexivity].
Qed.

(** Letters, digits, points and signs need no escape. *)
Lemma plain_escapes_closed (q : char) (t : pystr) :
  plain_char q = false ->
  forallb plain_char t = true -> escapes_closed q t = true.
Proof.
  intros Hq. induction t as [|c t IH]; simpl; [reflexivity|].
  intros H. apply andb_prop in H as [Hc Ht].
  rewrite (@plain_char_neq c 92%N Hc eq_refl), (@plain_char_neq c q Hc Hq).
  auto.
Qed.

Lemma hex_digit_plain (n : N) : plain_char (hex_digit (n mod 16)) = true.
Proof.
  assert (H : (n mod 16 < 16)%N) by (apply N.mod_lt; discriminate).
  revert H. generalize (n mod 16)%N as m. intros m H.
  unfold hex_digit, plain_char. destruct (N.ltb_spec m 10).
  - assert (E1 : (48 <=? 48 + m)%N = true) by (apply N.leb_le; lia).
    assert (E2 : (48 + m <=? 57)%N = true) by (apply N.leb_le; lia).
    now rewrite E1, E2.
  - assert (E1 : (97 <=? 87 + m)%N = true) by (apply N.leb_le; lia).
    assert (E2 : (87 + m <=? 122)%N = true) by (apply N.leb_le; lia).
    rewrite E1, E2. simpl. now rewrite !orb_true_r.
Qed.

Lemma plain_printable (c : char) : plain_char c = true -> printable c = true.
Proof.
  unfold plain_char, printable. intros H.
  repeat (apply orb_prop in H as [H | H]);
    try (apply andb_prop in H as [H1 H2]; apply N.leb_le in H1, H2);
    try apply N.eqb_eq in H;
    apply andb_true_intro; split; apply N.leb_le; lia.
Qed.

Lemma u_escape_closed (q : char) (n : N) :
  plain_char q = false -> escapes_closed q (u_escape n) = true.
Proof.
  intros Hq. unfold u_escape.
  change (escapes_closed q
            [hex_digit (N.shiftr n 12 mod 16); hex_digit (N.shiftr n 8 mod 16);
             hex_digit (N.shiftr n 4 mod 16); hex_digit (n mod 16)] = true).
  apply plain_escapes_closed; [exact Hq|].
  simpl. now rewrite !hex_digit_plain.
Qed.

Lemma u_escape_printable (n : N) : forallb printable (u_escape n) = true.
Proof.
  unfold u_escape. cbn [forallb]. 
  rewrite !(plain_printable _ (hex_digit_plain _)). reflexivity.
Qed.

(** What replaces a character can stand inside a literal delimited by [q],
    unless the character is [q] itself and [q] is not the double quote. *)
Lemma escape_char_closed (q c : char) :
  plain_char q = false -> (c = q -> q = 34%N) ->
  escapes_closed q (escape_char c) = true.
Proof.
  intros Hq Hcq. unfold escape_char.
  destruct (N.eqb_spec c 92); [reflexivity|].
  destruct (N.eqb_spec c 34); [reflexivity|].
  destruct ((32 <=? c) && (c <=? 126))%N.
  { simpl. destruct (N.eqb_spec c 92); [contradiction|].
    destruct (N.eqb_spec c q); [|reflexivity].
    exfalso. specialize (Hcq e). congruence. }
  destruct (c =? 8)%N; [reflexivity|].
  destruct (c =? 12)%N; [reflexivity|].
  destruct (c =? 10)%N; [reflexivity|].
  destruct (c =? 13)%N; [reflexivity|].
  destruct (c =? 9)%N; [reflexivity|].
  destruct (c <? 65536)%N; [now apply u_escape_closed|].
  apply escapes_closed_app; now apply u_escape_closed.
Qed.

Lemma escape_char_printable (c : char) :
  forallb printable (escape_char c) = true.
Proof.
  unfold escape_char.
  destruct (c =? 92)%N; [reflexivity|].
  destruct (c =? 34)%N; [reflexivity|].
  destruct ((32 <=? c) && (c <=? 126))%N eqn:Hp.
  { simpl. unfold printable. now rewrite Hp. }
  destruct (c =? 8)%N; [reflexivity|].
  destruct (c =? 12)%N; [reflexivity|].
  destruct (c =? 10)%N; [reflexivity|].
  destruct (c =? 13)%N; [reflexivity|].
  destruct (c =? 9)%N; [reflexivity|].
  destruct (c <? 65536)%N; [apply u_escape_printable|].
  rewrite forallb_app, !u_escape_printable. reflexivity.
Qed.

Lemma json_escape_closed (q : char) (s : pystr) :
  plain_char q = false -> (In q s -> q = 34%N) ->
  escapes_closed q (json_escape s) = true.
Proof.
  intros Hq. unfold json_escape.
  induction s as [|c s IH]; simpl; intros H; [reflexivity|].
  apply escapes_closed_app; [apply escape_char_closed | apply IH]; auto.
Qed.

Lemma json_escape_printable (s : pystr) :
  forallb printable (json_escape s) = true.
Proof.
  unfold json_escape. induction s as [|c s IH]; simpl; [reflexivity|].
  now rewrite forallb_app, escape_char_printable, IH.
Qed.

(** A single quote goes through the escaping as it is. *)
Lemma json_escape_quote (a b : pystr) :
  json_escape (a ++ 39%N :: b) = json_escape a ++ 39%N :: json_escape b.
Proof. unfold json_escape. now rewrite flat_map_app. Qed.

(** A JSON string literal ends at the quote written after the escaped
    text, whatever the text. *)
Lemma json_string_rest_closed (t rest : pystr) :
  escapes_closed 34%N t = true ->
  json_string_rest (t ++ 34%N :: rest) = Some rest.
Proof.
  induction t as [|c|c d t IH1 IH2] using pystr_ind2.
  - reflexivity.
  - simpl. destruct (c =? 92)%N; [discriminate|].
    destruct (c =? 34)%N; [discriminate | reflexivity].
  - intros H. cbn [app json_string_rest escapes_closed] in *.
    destruct (N.eqb_spec c 92) as [-> | _].
    + simpl. now apply IH1.
    + destruct (c =? 34)%N; [discriminate | now apply IH2].
Qed.

Lemma forallb_not_In (q : char) (t : pystr) :
  forallb (fun c => negb (c =? q)%N) t = true <-> ~ In q t.
Proof.
  induction t as [|c t IH]; simpl; [tauto|].
  rewrite andb_true_iff, IH, negb_true_iff, N.eqb_neq. intuition.
Qed.

Lemma uint_text_plain (d : Decimal.uint) :
  forallb plain_char (u (NilEmpty.string_of_uint d)) = true.
Proof. induction d; simpl; auto. Qed.

Lemma int_repr_plain (z : Z) : forallb plain_char (int_repr z) = true.
Proof.
  unfold int_repr, NilZero.string_of_int, NilZero.string_of_uint.
  destruct (Z.to_int z) as [d | d].
  - destruct d; try reflexivity; apply (uint_text_plain (_ d)).
  - change (forallb plain_char
              (45%N :: u match d with
                         | Decimal.Nil => "0"%string
                         | _ => NilEmpty.string_of_uint d
                         end) = true).
    simpl. destruct d; try reflexivity; apply (uint_text_plain (_ d)).
Qed.

(** *** Reading the literals of a statement *)

Lemma lex_outside (t rest : pystr) :
  ~ In 39%N t ->
  sql_literals_from false [] (t ++ rest) = sql_literals_from false [] rest.
Proof.
  induction t as [|c t IH]; simpl; [reflexivity|]. intros H.
  destruct (N.eqb_spec c 39); [tauto | apply IH; tauto].
Qed.

(** Text without single quotes and backslashes is read as it is. *)
Lemma lex_inside (t : pystr) :
  forallb lit_char t = true ->
  forall cur rest,
    sql_literals_from true cur (t ++ rest)
    = sql_literals_from true (cur ++ t) rest.
Proof.
  induction t as [|c t IH]; intros H cur rest.
  - now rewrite app_nil_r.
  - cbn [forallb] in H. apply andb_prop in H as [Hc Ht].
    unfold lit_char in Hc. apply andb_prop in Hc as [H39 H92].
    apply negb_true_iff in H39, H92.
    cbn [app sql_literals_from]. rewrite H92, H39.
    rewrite (IH Ht). now rewrite <- app_assoc.
Qed.

Lemma lex_close (cur : pystr) (c : char) (rest : pystr) :
  c <> 39%N ->
  sql_literals_from true cur (39%N :: c :: rest) =
  option_map (cons cur) (sql_literals_from false [] (c :: rest)).
Proof.
  intros H. cbn [sql_literals_from N.eqb Pos.eqb].
  destruct c as [|p]; [reflexivity|].
  do 6 (destruct p as [p|p|]; try reflexivity). congruence.
Qed.

(** The literal opened in front of a text without single quotes and
    backslashes denotes the text and closes at the quote behind it. *)
Lemma lex_literal (t rest : pystr) (c : char) :
  forallb lit_char t = true -> c <> 39%N ->
  sql_literals_from true [] (t ++ 39%N :: c :: rest)
  = option_map (cons t) (sql_literals_from false [] (c :: rest)).
Proof.
  intros Ht Hc. rewrite (lex_inside _ Ht). now apply lex_close.
Qed.

(** One row of values: its two literals denote the title and the JSON
    text. *)
Lemma lex_row (sheet json sep rest : pystr) :
  forallb lit_char sheet = true ->
  forallb lit_char json = true ->
  ~ In 39%N sep ->
  sql_literals_from false []
    ((u "('" ++ sheet ++ u "', current_timestamp, '" ++ json ++ u "')"
      ++ sep ++ nl) ++ rest)
  = option_map (fun ls => sheet :: json :: ls)
      (sql_literals_from false [] rest).
Proof.
  intros Hsheet Hjson Hsep.
  rewrite <- !app_assoc.
  change (u "('" ++ ?x) with (40%N :: 39%N :: x).
  change (sql_literals_from false [] (40%N :: 39%N :: ?x))
    with (sql_literals_from true [] x).
  change (u "', current_timestamp, '" ++ ?x)
    with (39%N :: 44%N :: u " current_timestamp, " ++ 39%N :: x).
  rewrite (@lex_literal sheet _ 44%N Hsheet) by discriminate.
  change (sql_literals_from false []
            (44%N :: u " current_timestamp, " ++ 39%N :: ?x))
    with (sql_literals_from true [] x).
  change (u "')" ++ ?x) with (39%N :: 41%N :: x).
  rewrite (@lex_literal json _ 41%N Hjson) by discriminate.
  change (sql_literals_from false [] (41%N :: ?x))
    with (sql_literals_from false [] x).
  rewrite (lex_outside _ _ Hsep).
  change (sql_literals_from false [] (nl ++ rest))
    with (sql_literals_from false [] rest).
  now destruct (sql_literals_from false [] rest).
Qed.

Lemma forallb_join (f : char -> bool) (sep : pystr) (items : list pystr) :
  forallb f sep = true ->
  Forall (fun x => forallb f x = true) items ->
  forallb f (join sep items) = true.
Proof.
  intros Hsep H. induction H as [|x items Hx Hitems IH]; [reflexivity|].
  destruct items as [|y items]; [exact Hx|].
  change (join sep (x :: y :: items)) with (x ++ sep ++ join sep (y :: items)).
  now rewrite !forallb_app, Hx, Hsep, IH.
Qed.


Lemma forallb_impl (f g : char -> bool) (t : pystr) :
  (forall c, f c = true -> g c = true) ->
  forallb f t = true -> forallb g t = true.
Proof.
  intros Hfg. induction t as [|c t IH]; simpl; [reflexivity|]. intros H.
  apply andb_prop in H as [Hc Ht]. now rewrite (Hfg _ Hc), IH.
Qed.

Lemma plain_lit_char (c : char) : plain_char c = true -> lit_char c = true.
Proof.
  intros H. unfold lit_char.
  now rewrite (@plain_char_neq c 39%N H eq_refl),
    (@plain_char_neq c 92%N H eq_refl).
Qed.

Lemma sql_plain_lit_char (c : char) :
  sql_plain_char c = true -> lit_char c = true.
Proof.
  unfold sql_plain_char, lit_char. intros H.
  apply andb_prop in H as [H H92]. apply andb_prop in H as [H _].
  apply andb_prop in H as [_ H39]. now rewrite H39, H92.
Qed.

(** [json.dumps] writes a text of printable ASCII without double quote and
    backslash as it is. *)
Lemma json_escape_plain (s : pystr) :
  forallb sql_plain_char s = true -> json_escape s = s.
Proof.
  unfold json_escape. induction s as [|c s IH]; simpl; [reflexivity|].
  intros H. apply andb_prop in H as [Hc Hs]. rewrite (IH Hs).
  unfold sql_plain_char in Hc.
  apply andb_prop in Hc as [Hc H92]. apply andb_prop in Hc as [Hc H34].
  apply andb_prop in Hc as [Hp _]. apply negb_true_iff in H92, H34.
  unfold escape_char. unfold printable in Hp. now rewrite H92, H34, Hp.
Qed.

Section Statement.
Context {rt : PyRuntime}.

Lemma json_string_lit (s : pystr) :
  forallb sql_plain_char s = true -> forallb lit_char (json_string s) = true.
Proof.
  intros H. unfold json_string. rewrite (json_escape_plain _ H).
  rewrite !forallb_app, (forallb_impl _ _ _ sql_plain_lit_char H).
  reflexivity.
Qed.

(** The JSON text of a record whose keys and cells are printable ASCII
    without quotes and backslashes holds no single quote and no
    backslash. *)
Lemma json_dumps_lit (obj : dict pyval) :
  (forall k v, In (k, v) obj ->
     forallb sql_plain_char k = true
     /\ (forall s, v = VStr s -> forallb sql_plain_char s = true)) ->
  forallb lit_char (json_dumps obj) = true.
Proof.
  intros H. unfold json_dumps. rewrite !forallb_app.
  apply andb_true_intro. split; [reflexivity|].
  apply andb_true_intro. split; [|reflexivity].
  apply forallb_join; [reflexivity|].
  apply Forall_map, Forall_forall. intros [k v] Hin. simpl fst. simpl snd.
  destruct (H k v Hin) as [Hk Hv].
  rewrite !forallb_app, (json_string_lit _ Hk).
  change (forallb lit_char (u ": ")) with true. cbn [andb].
  destruct v as [s | z | f |]; cbn [json_value].
  - apply json_string_lit. now apply Hv.
  - exact (forallb_impl _ _ _ plain_lit_char (int_repr_plain z)).
  - exact (forallb_impl _ _ _ plain_lit_char (float_repr_plain f)).
  - reflexivity.
Qed.

Lemma lex_rows (sheet : pystr) (count : Z) (data : list (dict pyval)) :
  forallb lit_char sheet = true ->
  Forall (fun obj => forallb lit_char (json_dumps obj) = true) data ->
  forall i,
    sql_literals_from false [] (insert_rows sheet count i data)
    = Some (flat_map (fun obj => [sheet; json_dumps obj]) data).
Proof.
  intros Hsheet H. induction H as [|obj data Hobj Hdata IH]; intros i.
  - reflexivity.
  - cbn [insert_rows flat_map]. unfold insert_row.
    rewrite lex_row; [now rewrite IH | exact Hsheet | exact Hobj |].
    destruct (negb _); simpl; intuition discriminate.
Qed.

Lemma insert_header_no_quote (schema table : pystr) :
  ~ In 39%N schema -> ~ In 39%N table ->
  ~ In 39%N (insert_header schema table).
Proof.
  intros Hs Ht. apply forallb_not_In in Hs, Ht. apply forallb_not_In.
  unfold insert_header. rewrite !forallb_app.
  repeat (apply andb_true_intro; split); try reflexivity; assumption.
Qed.

Lemma lit_char_not_In (t : pystr) :
  ~ In 39%N t -> ~ In 92%N t -> forallb lit_char t = true.
Proof.
  induction t as [|c t IH]; simpl; [reflexivity|]. intros H1 H2.
  unfold lit_char at 1.
  destruct (N.eqb_spec c 39); [tauto|]. destruct (N.eqb_spec c 92); [tauto|].
  apply IH; tauto.
Qed.

(** C2 (as the code has it). The statement is written without any escaping
    for SQL.  When the keys and the text cells of the records are printable
    ASCII without single quote, double quote and backslash, [json.dumps]
    writes them as they are, and the literal opened in front of the JSON
    text of a record denotes that text and closes at the quote written
    behind it; when, besides, the schema, the table and the title hold no
    single quote and the title no backslash, the string literals of the
    insert statement denote, row by row, the title and the JSON text of the
    record.  Whatever the cell, a JSON string ends at its own closing quote
    and is printable ASCII, and a single quote of a cell is written to the
    statement as it is.  A double quote or a backslash of a cell is written
    behind a backslash, which the SQL reader resolves: the cell
    [a", "admin": "true] under the key [k] gives a literal that denotes the
    JSON text of a record with the two keys [k] and [admin]. *)
Theorem insert_literals_intact (schema table : pystr) (p : payload) :
  (forall obj k v, In obj (data p) -> In (k, v) obj ->
     forallb sql_plain_char k = true
     /\ (forall s, v = VStr s -> forallb sql_plain_char s = true)) ->
  (forall obj k s, In obj (data p) -> In (k, VStr s) obj ->
     json_value (VStr s) = dquote ++ s ++ dquote)
  /\ (forall obj rest, In obj (data p) ->
        sql_literals_from true [] (json_dumps obj ++ u "')" ++ rest)
        = option_map (cons (json_dumps obj))
            (sql_literals_from false [] rest))
  /\ (~ In 39%N schema -> ~ In 39%N table ->
      ~ In 39%N (title p) -> ~ In 92%N (title p) ->
      literals_intact schema table p)
  /\ (forall s rest,
        json_string_rest (json_escape s ++ dquote ++ rest) = Some rest)
  /\ (forall s, forallb printable (json_escape s) = true)
  /\ (forall a b,
        json_escape (a ++ 39%N :: b) = json_escape a ++ 39%N :: json_escape b)
  /\ sql_literals
       (build_insert_rows (u "s") (u "t")
          {| title := u "T";
             data := [[(u "k", VStr (u "a" ++ dquote ++ u ", " ++ dquote
                                      ++ u "admin" ++ dquote ++ u ": "
                                      ++ dquote ++ u "true"))]] |})
     = Some [u "T";
             json_dumps [(u "k", VStr (u "a"));
                         (u "admin", VStr (u "true"))]].
Proof.
  intros Hdata.
  assert (Hlit : forall obj, In obj (data p) ->
                   forallb lit_char (json_dumps obj) = true).
  { intros obj Hobj. apply json_dumps_lit.
    intros k v Hkv. exact (Hdata obj k v Hobj Hkv). }
  split; [|split; [|split; [|split; [|split; [|split]]]]].
  - intros obj k s Hobj Hkv. cbn [json_value]. unfold json_string.
    destruct (Hdata obj k (VStr s) Hobj Hkv) as [_ Hs].
    now rewrite (json_escape_plain _ (Hs s eq_refl)).
  - intros obj rest Hobj.
    assert (H41 : 41%N <> 39%N) by discriminate.
    exact (@lex_literal (json_dumps obj) rest 41%N (Hlit obj Hobj) H41).
  - intros Hschema Htable Hq Hb.
    unfold literals_intact, sql_literals, build_insert_rows.
    rewrite lex_outside by now apply insert_header_no_quote.
    apply lex_rows; [now apply lit_char_not_In|].
    apply Forall_forall. exact Hlit.
  - intros s rest. apply json_string_rest_closed.
    apply json_escape_closed; [reflexivity | auto].
  - exact json_escape_printable.
  - exact json_escape_quote.
  - reflexivity.
Qed.

End Statement.

Lemma insert_literals_intact_witness :
  sql_literals
    (build_insert_rows (rt := ascii_runtime) (u "s") (u "t")
       {| title := u "T";
          data := [[(u "name", VStr (u "Bob Smith")); (u "amount", VInt 1200)];
                   [(u "name", VNone)]] |})
  = Some [u "T";
          u "{" ++ dquote ++ u "name" ++ dquote ++ u ": " ++ dquote
            ++ u "Bob Smith" ++ dquote ++ u ", "
            ++ dquote ++ u "amount" ++ dquote ++ u ": 1200}";
          u "T";
          u "{" ++ dquote ++ u "name" ++ dquote ++ u ": null}"].
Proof.
  refine (proj1 (proj2 (proj2
    (@insert_literals_intact ascii_runtime (u "s") (u "t")
       {| title := u "T";
          data := [[(u "name", VStr (u "Bob Smith")); (u "amount", VInt 1200)];
                   [(u "name", VNone)]] |} _))) _ _ _ _).
  - simpl. intros obj k v [<- | [<- | []]] Hkv; simpl in Hkv.
    + destruct Hkv as [[= <- <-] | [[= <- <-] | []]];
        (split; [reflexivity|]); intros s [= <-]; reflexivity.
    + destruct Hkv as [[= <- <-] | []].
      split; [reflexivity|]. intros s [=].
  - simpl. intuition discriminate.
  - simpl. intuition discriminate.
  - simpl. intuition discriminate.
  - simpl. intuition discriminate.
Defined.

(** C2, as stated, fails: the apostrophe of a cell ends the literal that
    holds the record, and the statement stops inside a literal. *)
Lemma single_quote_breaks_literal :
  ~ literals_intact (rt := ascii_runtime) (u "s") (u "t")
      {| title := u "T"; data := [[(u "name", VStr (u "O'Brien"))]] |}.
Proof. unfold literals_intact. vm_compute. discriminate. Qed.

(** * Further properties of the code *)

(** ** RowShaper *)

Lemma chop_at_blank_no_empty (row : list pystr) : ~ In [] (chop_at_blank row).
Proof.
  induction row as [|item row IH]; simpl; [tauto|].
  destruct (str_eqb item []) eqn:E; simpl; [tauto|].
  apply str_eqb_neq in E. intros [H | H]; auto.
Qed.

Lemma chop_at_blank_fixed (row : list pystr) :
  ~ In [] row -> chop_at_blank row = row.
Proof.
  induction row as [|item row IH]; simpl; [reflexivity|]. intros H.
  destruct (str_eqb item []) eqn:E.
  - apply str_eqb_eq in E. subst. tauto.
  - rewrite IH; tauto.
Qed.

(** X1. Header truncation is idempotent; its result holds no empty cell and
    is never longer than the row; it leaves a row as it is exactly when the
    row holds no empty cell. *)
Theorem chop_at_blank_idempotent (row : list pystr) :
  chop_at_blank (chop_at_blank row) = chop_at_blank row
  /\ ~ In [] (chop_at_blank row)
  /\ length (chop_at_blank row) <= length row
  /\ (chop_at_blank row = row <-> ~ In [] row).
Proof.
  split; [apply chop_at_blank_fixed, chop_at_blank_no_empty|].
  split; [apply chop_at_blank_no_empty|]. split.
  - induction row as [|item row IH]; simpl; [lia|].
    destruct (str_eqb item []); simpl; lia.
  - split; [|apply chop_at_blank_fixed].
    intros E. rewrite <- E. apply chop_at_blank_no_empty.
Qed.

(** X2. Everything from the first empty cell on is dropped, the non-empty
    cells behind it included. *)
Theorem chop_at_blank_cut (pre post : list pystr) :
  ~ In [] pre -> chop_at_blank (pre ++ [] :: post) = pre.
Proof.
  induction pre as [|item pre IH]; simpl; intros H; [reflexivity|].
  destruct (str_eqb item []) eqn:E.
  - apply str_eqb_eq in E. subst. tauto.
  - rewrite IH; tauto.
Qed.

Lemma chop_at_blank_cut_witness :
  chop_at_blank ([u "Name"; u "Amount"] ++ [] :: [u "Notes"; u "Owner"])
  = [u "Name"; u "Amount"].
Proof.
  apply (@chop_at_blank_cut [u "Name"; u "Amount"] [u "Notes"; u "Owner"]).
  simpl. intuition discriminate.
Defined.

Lemma drop_empty_rows_has_content (rows : list (list pystr)) :
  Forall has_content (drop_empty_rows rows).
Proof.
  unfold drop_empty_rows. apply Forall_forall. intros row H.
  apply filter_In in H as [_ H]. now apply any_has_content.
Qed.

Lemma drop_empty_rows_fixed (rows : list (list pystr)) :
  Forall has_content rows -> drop_empty_rows rows = rows.
Proof.
  unfold drop_empty_rows. induction 1 as [|row rows Hrow _ IH]; simpl.
  - reflexivity.
  - apply any_has_content in Hrow. now rewrite Hrow, IH.
Qed.

(** X3. Blank-row filtering is idempotent and works row by row: the result
    for two lists put end to end is the two results put end to end; it
    leaves the rows as they are exactly when each row has a cell that is
    non-empty after trimming; a row without cells is dropped. *)
Theorem drop_empty_rows_idempotent (rows rows' : list (list pystr)) :
  drop_empty_rows (drop_empty_rows rows) = drop_empty_rows rows
  /\ drop_empty_rows (rows ++ rows') = drop_empty_rows rows ++ drop_empty_rows rows'
  /\ length (drop_empty_rows rows) <= length rows
  /\ (drop_empty_rows rows = rows <-> Forall has_content rows)
  /\ drop_empty_rows ([] :: rows) = drop_empty_rows rows.
Proof.
  split; [apply drop_empty_rows_fixed, drop_empty_rows_has_content|].
  split; [apply filter_app|].
  split; [apply filter_length_le|].
  split; [|reflexivity].
  split; [|apply drop_empty_rows_fixed].
  intros E. rewrite <- E. apply drop_empty_rows_has_content.
Qed.

(** ** HeaderKeyNormalizer *)

Lemma key_char_cases (c : char) :
  key_char c = true ->
  ((97 <= c <= 122) \/ (48 <= c <= 57) \/ c = 95)%N.
Proof.
  unfold key_char. intros H.
  apply orb_prop in H as [H | H]; [apply orb_prop in H as [H | H]|].
  - apply andb_prop in H as [H1 H2]. apply N.leb_le in H1, H2. lia.
  - apply andb_prop in H as [H1 H2]. apply N.leb_le in H1, H2. lia.
  - apply N.eqb_eq in H. lia.
Qed.

Lemma key_char_lower (c : char) :
  key_char c = true -> is_ascii c = true /\ ascii_lower c = c.
Proof.
  intros H. apply key_char_cases in H. unfold is_ascii, ascii_lower. split.
  - apply N.ltb_lt. lia.
  - destruct ((65 <=? c)%N && (c <=? 90)%N) eqn:E; [|reflexivity].
    apply andb_prop in E as [E1 E2]. apply N.leb_le in E1, E2. lia.
Qed.

Lemma re_sub_plus_key_text (t : pystr) (in_match : bool) :
  forallb key_char t = true ->
  re_sub_plus (fun c => negb (key_char c)) (u "_") in_match t = t.
Proof.
  revert in_match. induction t as [|c t IH]; intros in_match; simpl;
    [reflexivity|].
  intros H. apply andb_prop in H as [Hc Ht]. rewrite Hc. simpl.
  now rewrite IH.
Qed.

(** X4. Key normalisation is idempotent: the keys of headers, taken as
    headers again, give themselves. *)
Theorem headers_to_keys_idempotent {rt : PyRuntime} (headers : list pystr) :
  headers_to_keys (headers_to_keys headers) = headers_to_keys headers.
Proof.
  unfold headers_to_keys at 1. rewrite <- (map_id (headers_to_keys headers)) at 2.
  apply map_ext_in. intros key Hkey.
  assert (Hk : forallb key_char key = true).
  { unfold headers_to_keys in Hkey. apply in_map_iff in Hkey as (h & <- & _).
    apply re_sub_plus_key_chars. }
  rewrite str_lower_ascii.
  - replace (map ascii_lower key) with key; [now apply re_sub_plus_key_text|].
    rewrite <- (map_id key) at 1. apply map_ext_in. intros c Hc.
    rewrite forallb_forall in Hk. symmetry. now apply key_char_lower, Hk.
  - apply forallb_forall. intros c Hc. rewrite forallb_forall in Hk.
    now apply key_char_lower, Hk.
Qed.

(** ** Coercer *)

Lemma dict_set_new {V} (d : dict V) (k : pystr) (v : V) :
  ~ In k (keys d) -> dict_set d k v = d ++ [(k, v)].
Proof.
  induction d as [|[k0 v0] d IH]; simpl; intros H; [reflexivity|].
  destruct (str_eqb k0 k) eqn:E.
  - apply str_eqb_eq in E. tauto.
  - rewrite IH; tauto.
Qed.

Section CoercerLoop.
Context {rt : PyRuntime}.
Variable coercions : coercion_spec.

(** What the loop writes is what its items write, in their order. *)
Lemma coerce_items_log (items : list (pystr * pystr)) :
  forall (result0 result : dict pyval) (log : list pystr),
    coerce_items items coercions result0 = (log, Return result) ->
    log = flat_map
            (fun kv => fst (coerce_value (coercions_get coercions (fst kv))
                              (snd kv)))
            items.
Proof.
  induction items as [|[k v] items IH]; intros result0 result log; simpl.
  - now intros [= <- _].
  - intros H. apply bind_return in H as (l & w & l' & Hc & H & ->).
    rewrite Hc. simpl. f_equal. exact (IH _ _ _ H).
Qed.

(** The loop appends the keys of its items, in their order, to a dict that
    holds none of them. *)
Lemma coerce_items_keys (items : list (pystr * pystr)) :
  forall (result0 result : dict pyval) (log : list pystr),
    NoDup (keys result0 ++ keys items) ->
    coerce_items items coercions result0 = (log, Return result) ->
    keys result = keys result0 ++ keys items.
Proof.
  induction items as [|[k v] items IH]; intros result0 result log Hnd; simpl.
  - intros [= _ <-]. now rewrite app_nil_r.
  - intros H. apply bind_return in H as (l & w & l' & _ & H & _).
    assert (Hk : ~ In k (keys result0)).
    { intros Hin. apply NoDup_remove_2 in Hnd. apply Hnd.
      apply in_or_app. now left. }
    simpl in Hnd.
    assert (E : keys (dict_set result0 k w) = keys result0 ++ [k]).
    { rewrite (@dict_set_new _ result0 k w Hk). unfold keys. now rewrite map_app. }
    rewrite (IH _ _ _ ltac:(rewrite E, <- app_assoc; exact Hnd) H), E.
    now rewrite <- app_assoc.
Qed.

(** Items without a target go to the result as they are. *)
Lemma coerce_items_no_target (items : list (pystr * pystr)) :
  forall result0 : dict pyval,
    NoDup (keys result0 ++ keys items) ->
    (forall k, In k (keys items) -> coercions_get coercions k = None) ->
    coerce_items items coercions result0
    = ([], Return (result0 ++ uncoerced items)).
Proof.
  induction items as [|[k v] items IH]; intros result0 Hnd Hnone; simpl.
  - now rewrite app_nil_r.
  - rewrite (Hnone k) by now left.
    assert (Hk : ~ In k (keys result0)).
    { intros Hin. apply NoDup_remove_2 in Hnd. apply Hnd.
      apply in_or_app. now left. }
    change (coerce_value None v) with (@ret pyval (VStr v)). simpl.
    rewrite (@dict_set_new _ result0 k (VStr v) Hk), IH.
    + now rewrite <- app_assoc.
    + unfold keys in *. rewrite map_app, <- app_assoc. exact Hnd.
    + intros k' Hk'. apply Hnone. now right.
Qed.

End CoercerLoop.

(** X5. When [apply_coercions_1] returns, the record it returns has the keys
    of the record it was given, in the same order, and the error stream holds
    what the items wrote, item after item. *)
Theorem apply_coercions_1_keys {rt : PyRuntime} (obj : dict pystr)
  (coercions : coercion_spec) (log : list pystr) (result : dict pyval) :
  NoDup (keys obj) ->
  apply_coercions_1 obj coercions = (log, Return result) ->
  keys result = keys obj
  /\ log = flat_map
             (fun kv => fst (coerce_value (coercions_get coercions (fst kv))
                               (snd kv)))
             obj.
Proof.
  intros Hnd H. split.
  - exact (@coerce_items_keys rt coercions obj [] result log Hnd H).
  - exact (@coerce_items_log rt coercions obj [] result log H).
Qed.

Lemma apply_coercions_1_keys_witness :
  keys ([(u "when", VStr (u "x")); (u "amount", VInt 7);
         (u "name", VStr (u "Bob"))] : dict (@pyval ascii_runtime))
  = keys [(u "when", u "x"); (u "amount", u "$7"); (u "name", u "Bob")].
Proof.
  refine (proj1
    (@apply_coercions_1_keys ascii_runtime
       [(u "when", u "x"); (u "amount", u "$7"); (u "name", u "Bob")]
       [(u "amount", Some (u "int")); (u "when", Some (u "day"))]
       [u "Unknown coercion target 'day'" ++ nl]
       [(u "when", VStr (u "x")); (u "amount", VInt 7);
        (u "name", VStr (u "Bob"))] _ _)).
  - repeat constructor; simpl; intuition discriminate.
  - reflexivity.
Defined.

(** X6. A record none of whose keys has a target (the key is missing from
    the coercions, or its target is a JSON null) comes back with its cells
    unchanged, and nothing is written or raised. *)
Theorem apply_coercions_1_no_target {rt : PyRuntime} (obj : dict pystr)
  (coercions : coercion_spec) :
  NoDup (keys obj) ->
  (forall k, In k (keys obj) -> coercions_get coercions k = None) ->
  apply_coercions_1 obj coercions = ([], Return (uncoerced obj)).
Proof.
  intros Hnd Hnone.
  exact (@coerce_items_no_target rt coercions obj [] Hnd Hnone).
Qed.

Lemma apply_coercions_1_no_target_witness :
  apply_coercions_1 (rt := ascii_runtime)
    [(u "name", u "Bob"); (u "amount", u "$7")]
    [(u "total", Some (u "int")); (u "amount", None)]
  = ([], Return [(u "name", VStr (u "Bob")); (u "amount", VStr (u "$7"))]).
Proof.
  apply (@apply_coercions_1_no_target ascii_runtime
           [(u "name", u "Bob"); (u "amount", u "$7")]
           [(u "total", Some (u "int")); (u "amount", None)]).
  - repeat constructor; simpl; intuition discriminate.
  - simpl. intros k [<- | [<- | []]]; reflexivity.
Defined.

Lemma re_sub_class_delete_twice (cls : char -> bool) (s : pystr) :
  re_sub_class cls [] (re_sub_class cls [] s) = re_sub_class cls [] s.
Proof.
  rewrite !re_sub_class_delete. induction s as [|c s IH]; simpl; [reflexivity|].
  destruct (cls c) eqn:E; simpl; [exact IH|]. now rewrite E, IH.
Qed.

Lemma re_sub_class_delete_all (cls : char -> bool) (s : pystr) :
  forallb cls s = true -> re_sub_class cls [] s = [].
Proof.
  rewrite re_sub_class_delete. induction s as [|c s IH]; simpl; [reflexivity|].
  intros H. apply andb_prop in H as [Hc Hs]. rewrite Hc. simpl. auto.
Qed.

Lemma coerce_value_float {rt : PyRuntime} (val : pystr) :
  coerce_value (Some (u "float")) val =
  let digits := re_sub_class comma_dollar [] val in
  if truthy digits
  then match float_of_str digits with
       | Some f => ([], Return (VFloat f))
       | None => ([], Raise ValueError)
       end
  else ([], Return VNone).
Proof.
  unfold coerce_value.
  change (target_in (Some (u "float")) [u "int"; u "integer"]) with false.
  change (target_in (Some (u "float")) [u "float"]) with true.
  cbv zeta iota. destruct (truthy _); [|reflexivity].
  now destruct (float_of_str _).
Qed.

(** X7. For the targets [int], [integer] and [float], commas and dollar
    signs in a cell do not matter: the cell and the cell without them are
    coerced alike, and a cell made of nothing else (a lone dollar sign, the
    empty cell) gives [None] without an error. *)
Theorem money_marks_ignored {rt : PyRuntime} (tag val : pystr) :
  In tag [u "int"; u "integer"; u "float"] ->
  coerce_value (Some tag) (re_sub_class comma_dollar [] val)
  = coerce_value (Some tag) val
  /\ (forallb comma_dollar val = true ->
      coerce_value (Some tag) val = ([], Return VNone)).
Proof.
  intros Htag.
  assert (Hc : forall v,
             coerce_value (Some tag) v =
             let digits := re_sub_class comma_dollar [] v in
             if truthy digits
             then coerce_value (Some tag) digits
             else ([], Return VNone)).
  { intros v. simpl in Htag.
    destruct Htag as [<- | [<- | [<- | []]]];
      rewrite ?coerce_value_float, ?(coerce_value_int v (or_introl eq_refl)),
        ?(coerce_value_int v (or_intror eq_refl)); cbv zeta;
      destruct (truthy (re_sub_class comma_dollar [] v)) eqn:Ht;
      try reflexivity;
      rewrite ?coerce_value_float,
        ?(coerce_value_int (re_sub_class comma_dollar [] v) (or_introl eq_refl)),
        ?(coerce_value_int (re_sub_class comma_dollar [] v) (or_intror eq_refl));
      cbv zeta; now rewrite re_sub_class_delete_twice, Ht. }
  split.
  - rewrite (Hc val), (Hc (re_sub_class comma_dollar [] val)). cbv zeta.
    rewrite re_sub_class_delete_twice.
    destruct (truthy (re_sub_class comma_dollar [] val)) eqn:Ht;
      [|reflexivity].
    rewrite (Hc (re_sub_class comma_dollar [] val)). cbv zeta.
    now rewrite re_sub_class_delete_twice, Ht.
  - intros Hall. rewrite (Hc val). cbv zeta.
    now rewrite (re_sub_class_delete_all _ _ Hall).
Qed.

Lemma money_marks_ignored_witness :
  coerce_value (rt := ascii_runtime) (Some (u "integer")) (u "$1,234,567")
  = ([], Return (VInt 1234567))
  /\ coerce_value (rt := ascii_runtime) (Some (u "float")) (u "$")
     = ([], Return VNone).
Proof.
  split.
  - rewrite <- (proj1 (@money_marks_ignored ascii_runtime (u "integer")
                         (u "$1,234,567") ltac:(simpl; auto))).
    reflexivity.
  - apply (proj2 (@money_marks_ignored ascii_runtime (u "float") (u "$")
                    ltac:(simpl; auto))).
    reflexivity.
Defined.

Lemma isspace_low (c : char) :
  isspace c = true -> (c < 127)%N -> (c <= 32)%N.
Proof.
  unfold isspace. intros H Hc.
  repeat (apply orb_prop in H as [H | H]);
    try (apply andb_prop in H as [H1 H2]; apply N.leb_le in H1, H2);
    try apply N.eqb_eq in H; lia.
Qed.

Lemma isspace_not_money (s : pystr) :
  forallb isspace s = true -> re_sub_class comma_dollar [] s = s.
Proof.
  rewrite re_sub_class_delete. induction s as [|c s IH]; simpl; [reflexivity|].
  intros H. apply andb_prop in H as [Hc Hs].
  assert (E : comma_dollar c = false).
  { unfold comma_dollar. destruct (N.eqb_spec c 44) as [-> | _];
      [discriminate Hc|].
    destruct (N.eqb_spec c 36) as [-> | _]; [discriminate Hc | reflexivity]. }
  rewrite E. simpl. now rewrite IH.
Qed.

Lemma skip_spaces_Forall (P : char -> Prop) (s : pystr) :
  Forall P s -> Forall P (skip_spaces s).
Proof.
  induction 1 as [|c s Hc Hs IH]; simpl; [constructor|].
  destruct (c_isspace c); [exact IH | now constructor].
Qed.

(** [int] reads no number in a text of white space. *)
Lemma int_of_str_spaces {rt : PyRuntime} (s : pystr) :
  forallb isspace s = true -> int_of_str s = None.
Proof.
  intros H.
  assert (Hlow : Forall (fun c => (c <= 32)%N)
                   (skip_spaces (to_ascii_decimal s))).
  { apply skip_spaces_Forall. unfold to_ascii_decimal.
    apply Forall_map, Forall_forall. intros c Hc.
    rewrite forallb_forall in H. specialize (H c Hc).
    destruct (N.ltb_spec c 127); [now apply isspace_low|].
    rewrite H. lia. }
  unfold int_of_str.
  destruct (skip_spaces (to_ascii_decimal s)) as [|c r]; [reflexivity|].
  inversion Hlow as [|? ? Hc _]; subst. clear - Hc.
  destruct c as [|p]; [reflexivity|].
  do 6 (destruct p as [p|p|]; try reflexivity; try lia).
Qed.

(** X8. A non-empty cell of white space under an [int] or [integer] target
    raises [ValueError]: the guard of these targets tests the cell as it is,
    untrimmed, and [int] reads no number in it. *)
Theorem whitespace_int_raises {rt : PyRuntime} (tag val : pystr) :
  tag = u "int" \/ tag = u "integer" ->
  val <> [] ->
  forallb isspace val = true ->
  coerce_value (Some tag) val = ([], Raise ValueError).
Proof.
  intros Htag Hne Hws. rewrite (coerce_value_int val Htag). cbv zeta.
  rewrite (isspace_not_money _ Hws).
  apply truthy_true in Hne. rewrite Hne.
  now rewrite (int_of_str_spaces _ Hws).
Qed.

Lemma whitespace_int_raises_witness :
  coerce_value (rt := ascii_runtime) (Some (u "int")) (u "  ")
  = ([], Raise ValueError).
Proof.
  apply (@whitespace_int_raises ascii_runtime (u "int") (u "  ")).
  - now left.
  - discriminate.
  - reflexivity.
Defined.



Section CoercerErrors.
Context {rt : PyRuntime}.
Variable coercions : coercion_spec.

Lemma coerce_items_first_raise (pre post : list (pystr * pystr))
  (k v : pystr) (l : list pystr) (e : exn) :
  Forall (fun kv => exists w,
            snd (coerce_value (coercions_get coercions (fst kv)) (snd kv))
            = Return w) pre ->
  coerce_value (coercions_get coercions k) v = (l, Raise e) ->
  forall result0,
    coerce_items (pre ++ (k, v) :: post) coercions result0
    = (flat_map
         (fun kv => fst (coerce_value (coercions_get coercions (fst kv))
                           (snd kv))) pre ++ l,
       Raise e).
Proof.
  intros Hpre He. induction Hpre as [|[k0 v0] pre (w & Hw) _ IH];
    intros result0; simpl.
  - now rewrite He.
  - simpl in Hw.
    destruct (coerce_value (coercions_get coercions k0) v0) as [l0 r0].
    simpl in Hw. subst r0. simpl. rewrite IH. now rewrite app_assoc.
Qed.

End CoercerErrors.

(** X10. The first item of a record whose coercion raises ends
    [apply_coercions_1]: the exception is that item's, the items behind it
    are not looked at, no record is returned, and what the items before it
    and the item itself wrote stays on the error stream. *)
Theorem first_error_wins {rt : PyRuntime} (coercions : coercion_spec)
  (pre post : list (pystr * pystr)) (k v : pystr) (l : list pystr) (e : exn) :
  Forall (fun kv => exists w,
            snd (coerce_value (coercions_get coercions (fst kv)) (snd kv))
            = Return w) pre ->
  coerce_value (coercions_get coercions k) v = (l, Raise e) ->
  apply_coercions_1 (pre ++ (k, v) :: post) coercions
  = (flat_map
       (fun kv => fst (coerce_value (coercions_get coercions (fst kv))
                         (snd kv))) pre ++ l,
     Raise e).
Proof.
  intros Hpre He. unfold apply_coercions_1.
  now apply coerce_items_first_raise.
Qed.

Lemma first_error_wins_witness :
  apply_coercions_1 (rt := ascii_runtime)
    ([(u "kind", u "x")] ++ (u "amount", u "12a") :: [(u "day", u "")])
    [(u "kind", Some (u "money")); (u "amount", Some (u "int"));
     (u "day", Some (u "date"))]
  = ([u "Unknown coercion target 'money'" ++ nl], Raise ValueError).
Proof.
  apply (@first_error_wins ascii_runtime
           [(u "kind", Some (u "money")); (u "amount", Some (u "int"));
            (u "day", Some (u "date"))]
           [(u "kind", u "x")] [(u "day", u "")]
           (u "amount") (u "12a") [] ValueError).
  - repeat constructor. simpl. eexists. reflexivity.
  - reflexivity.
Defined.

(** X11. [apply_coercions] works record by record and all or nothing: when
    it returns, there is one result per record, in order, each the result of
    [apply_coercions_1] on its record, and the error stream holds what the
    records wrote, record after record; when [apply_coercions_1] raises on
    one record, [apply_coercions] raises and returns no record at all. *)
Theorem apply_coercions_pointwise {rt : PyRuntime} (data : list (dict pystr))
  (coercions : coercion_spec) :
  (forall log rs,
     apply_coercions data coercions = (log, Return rs) ->
     length rs = length data
     /\ Forall2 (fun obj r => snd (apply_coercions_1 obj coercions) = Return r)
          data rs
     /\ log = flat_map (fun obj => fst (apply_coercions_1 obj coercions)) data)
  /\ (forall obj l e,
        In obj data ->
        apply_coercions_1 obj coercions = (l, Raise e) ->
        exists log e', apply_coercions data coercions = (log, Raise e')).
Proof.
  split.
  - intros log rs H. destruct (apply_coercions_return _ _ H) as [H2 Hlog].
    split; [|split; [exact H2 | exact Hlog]].
    clear - H2. induction H2; simpl; congruence.
  - intros obj l e. apply apply_coercions_raise.
Qed.

(** ** RecordBuilder *)

Lemma drop_empty_rows_keeps (rows : list (list pystr)) :
  retains has_content rows (drop_empty_rows rows).
Proof.
  unfold drop_empty_rows. induction rows as [|row rows IH]; simpl.
  - constructor.
  - destruct (any _ row) eqn:E.
    + apply retains_keep; [now apply any_has_content | exact IH].
    + apply retains_skip; [|exact IH].
      intros H. apply any_has_content in H. congruence.
Qed.

(** X12. [_read_worksheet] raises [IndexError] on a worksheet without rows.
    On any other worksheet it returns, writing nothing: the title is the
    worksheet's; the effective headers are the cells of the first row in
    front of its first empty cell (all of them when it has none), and hold
    no empty cell; the data rows are the rows behind the first one, in
    their order and as they are, without those that have no cell with
    content after trimming. *)
Theorem raw_payload_shape (ws : worksheet) :
  (ws_rows ws = [] /\ _read_worksheet ws = ([], Raise IndexError))
  \/ (exists row0 rows' raw rest,
        ws_rows ws = row0 :: rows'
        /\ _read_worksheet ws = ([], Return raw)
        /\ raw_title raw = ws_title ws
        /\ row0 = raw_headers raw ++ rest
        /\ ~ In [] (raw_headers raw)
        /\ (rest = [] \/ exists rest', rest = [] :: rest')
        /\ retains has_content rows' (raw_data raw)
        /\ Forall has_content (raw_data raw)).
Proof.
  unfold _read_worksheet. destruct (ws_rows ws) as [|row0 rows]; [now left|].
  right. destruct (chop_at_blank_prefix row0) as (rest & E & _ & Hrest).
  exists row0, rows. eexists. exists rest.
  split; [reflexivity|]. split; [reflexivity|]. simpl.
  split; [reflexivity|]. split; [exact E|].
  split; [apply chop_at_blank_no_empty|]. split; [exact Hrest|].
  split; [apply drop_empty_rows_keeps | apply drop_empty_rows_has_content].
Qed.

Lemma keys_fold_dict_set {V} (pairs : list (pystr * V)) :
  forall d : dict V,
    incl (keys (fold_left (fun d kv => dict_set d (fst kv) (snd kv)) pairs d))
         (keys d ++ map fst pairs).
Proof.
  induction pairs as [|[k v] pairs IH]; intros d; simpl.
  - rewrite app_nil_r. apply incl_refl.
  - intros k' Hk'. apply IH in Hk'. apply in_app_or in Hk' as [Hk' | Hk'].
    + apply keys_dict_set in Hk' as [Hk' | ->].
      * apply in_or_app. now left.
      * apply in_or_app. right. now left.
    + apply in_or_app. right. now right.
Qed.

(** The keys of a record made from a row are keys of the header row, each
    once. *)
Lemma dict_of_zip_keys {V} (ks : list pystr) (row : list V) :
  NoDup (keys (dict_of (zip ks row))) /\ incl (keys (dict_of (zip ks row))) ks.
Proof.
  split; [apply dict_of_NoDup|].
  intros k Hk. apply (keys_fold_dict_set (zip ks row) []) in Hk. simpl in Hk.
  apply in_map_iff in Hk as ([k' v] & <- & Hin).
  exact (in_combine_l _ _ _ _ Hin).
Qed.

(** X13. [read_worksheet] raises [IndexError] on a worksheet without rows,
    whatever the coercions, and treats an empty dict of coercions like no
    coercions.  When it returns, the title is the worksheet's, there is one
    record per non-blank data row, and each record holds normalised keys of
    the effective headers only, each at most once. *)
Theorem read_worksheet_shape {rt : PyRuntime} (ws : worksheet)
  (coercions : option coercion_spec) :
  (ws_rows ws = [] -> read_worksheet ws coercions = ([], Raise IndexError))
  /\ read_worksheet ws (Some []) = read_worksheet ws None
  /\ (forall log p,
        read_worksheet ws coercions = (log, Return p) ->
        title p = ws_title ws
        /\ length (data p) = length (drop_empty_rows (tl (ws_rows ws)))
        /\ Forall
             (fun r =>
                NoDup (keys r)
                /\ incl (keys r)
                     (headers_to_keys (chop_at_blank (hd [] (ws_rows ws)))))
             (data p)).
Proof.
  split; [|split; [reflexivity|]].
  - intros E. unfold read_worksheet, _read_worksheet. now rewrite E.
  - intros log p. unfold read_worksheet, _read_worksheet.
    destruct (ws_rows ws) as [|row0 rows]; [discriminate|].
    cbn [bind ret raise raw_headers raw_data raw_title hd tl].
    set (ks := headers_to_keys (chop_at_blank row0)).
    set (objects := map (fun row => dict_of (zip ks row)) (drop_empty_rows rows)).
    assert (Hobjects : Forall (fun o : dict pystr =>
                                 NoDup (keys o) /\ incl (keys o) ks) objects).
    { apply Forall_map, Forall_forall. intros row _. apply dict_of_zip_keys. }
    assert (Hlen : length objects = length (drop_empty_rows rows))
      by apply length_map.
    assert (Hplain :
              forall log p,
                (let (w', r) :=
                   (let (w', r) := ret (map uncoerced objects) in
                    ([] ++ w', r)) in
                 match r with
                 | Return a =>
                     let (w'', r') := ret {| title := ws_title ws; data := a |}
                     in (w' ++ w'', r')
                 | Raise e => (w', Raise e)
                 end) = (log, Return p) ->
                title p = ws_title ws
                /\ length (data p) = length (drop_empty_rows rows)
                /\ Forall (fun r => NoDup (keys r) /\ incl (keys r) ks) (data p)).
    { intros log' p' [= _ <-]. simpl. split; [reflexivity|].
      split; [now rewrite length_map|].
      apply Forall_map. revert Hobjects. apply Forall_impl.
      intros o. now rewrite uncoerced_keys_eq. }
    destruct coercions as [[|c0 cs]|]; cbn [coercions_truthy];
      try (intros H; exact (Hplain _ _ H)).
    destruct (apply_coercions objects (c0 :: cs)) as [l [rs|e]] eqn:E;
      simpl; [|discriminate].
    intros [= _ <-]. simpl. split; [reflexivity|].
    destruct (apply_coercions_return _ _ E) as [H2 _].
    split.
    + rewrite <- Hlen. clear - H2. induction H2; simpl; congruence.
    + clear - H2 Hobjects. induction H2 as [|o r os rs Hr _ IH];
        [constructor|].
      inversion Hobjects as [|? ? [Hnd Hincl] Hos]; subst.
      constructor; [|now apply IH].
      destruct (apply_coercions_1 o (c0 :: cs)) as [l' r'] eqn:E1.
      simpl in Hr. subst r'.
      rewrite (@coerce_items_keys rt (c0 :: cs) o [] r l' Hnd E1). auto.
Qed.

Lemma apply_coercions_empty_records {rt : PyRuntime} (coercions : coercion_spec)
  (n : nat) :
  apply_coercions (repeat [] n) coercions = ([], Return (repeat [] n)).
Proof.
  induction n as [|n IH]; simpl; [reflexivity|]. now rewrite IH.
Qed.

Lemma map_const_repeat {A B} (b : B) (l : list A) :
  map (fun _ => b) l = repeat b (length l).
Proof. induction l as [|a l IH]; simpl; congruence. Qed.

(** X14. When the first cell of the header row is empty, there are no
    effective headers: every non-blank data row gives the empty record,
    whatever its cells and whatever the coercions, and nothing is raised or
    written. *)
Theorem blank_header_empty_records {rt : PyRuntime} (sheet : pystr)
  (headers : list pystr) (rows : list (list pystr))
  (coercions : option coercion_spec) :
  read_worksheet
    {| ws_title := sheet; ws_rows := ([] :: headers) :: rows |} coercions
  = ([], Return {| title := sheet;
                   data := repeat [] (length (drop_empty_rows rows)) |}).
Proof.
  unfold read_worksheet, _read_worksheet.
  cbn [ws_rows ws_title bind ret raw_headers raw_data raw_title].
  change (chop_at_blank ([] :: headers)) with (@nil pystr).
  change (headers_to_keys []) with (@nil pystr).
  change (fun row : list pystr => dict_of (zip [] row))
    with (fun _ : list pystr => @nil (pystr * pystr)).
  rewrite map_const_repeat.
  assert (E : map uncoerced (repeat (@nil (pystr * pystr))
                               (length (drop_empty_rows rows)))
              = repeat [] (length (drop_empty_rows rows))).
  { induction (length (drop_empty_rows rows)) as [|n IH]; simpl;
      [reflexivity | now rewrite IH]. }
  pose proof (apply_coercions_empty_records) as Hsome.
  destruct coercions as [[|c0 cs]|]; cbn [coercions_truthy].
  - cbn [bind ret app]. do 3 f_equal. exact E.
  - unfold dict in *. rewrite Hsome. reflexivity.
  - cbn [bind ret app]. do 3 f_equal. exact E.
Qed.

(** ** StatementBuilder *)

Section Rows.
Context {rt : PyRuntime}.

Lemma insert_rows_join (sheet : pystr) (count : Z) (data : list (dict pyval)) :
  data <> [] ->
  forall i : Z,
    (i + Z.of_nat (length data) = count)%Z ->
    insert_rows sheet count i data
    = join (u "," ++ nl)
        (map (fun obj =>
                u "('" ++ sheet ++ u "', current_timestamp, '"
                ++ json_dumps obj ++ u "')") data)
      ++ nl.
Proof.
  induction data as [|obj data IH]; [congruence|]. intros _ i Hi.
  destruct data as [|obj' data].
  - cbn [insert_rows map join]. unfold insert_row.
    assert (E : (i =? count - 1)%Z = true) by (apply Z.eqb_eq; simpl in Hi; lia).
    rewrite E. cbn [negb]. rewrite <- !app_assoc. now rewrite !app_nil_r.
  - change (insert_rows sheet count i (obj :: obj' :: data))
      with (insert_row sheet count i obj
            ++ insert_rows sheet count (i + 1) (obj' :: data)).
    rewrite (IH ltac:(discriminate) (i + 1)%Z).
    + unfold insert_row.
      assert (E : (i =? count - 1)%Z = false).
      { apply Z.eqb_neq. cbn [length] in Hi. lia. }
      rewrite E. cbn [negb map join]. now rewrite <- !app_assoc.
    + cbn [length] in *. lia.
Qed.

End Rows.

(** X15. For a payload with at least one record, the insert statement is
    the three header lines, then the rows of values, one per record in the
    order of the records, joined by a comma and a newline, then a newline:
    a comma follows every row but the last. *)
Theorem build_insert_rows_join {rt : PyRuntime} (schema table : pystr)
  (p : payload) :
  data p <> [] ->
  build_insert_rows schema table p
  = insert_header schema table
    ++ join (u "," ++ nl)
         (map (fun obj =>
                 u "('" ++ title p ++ u "', current_timestamp, '"
                 ++ json_dumps obj ++ u "')") (data p))
    ++ nl.
Proof.
  intros H. unfold build_insert_rows. f_equal.
  apply insert_rows_join; [exact H | lia].
Qed.

Lemma build_insert_rows_join_witness :
  build_insert_rows (rt := ascii_runtime) (u "s") (u "t")
    {| title := u "T"; data := [[(u "a", VInt 1)]; []; [(u "b", VNone)]] |}
  = insert_header (u "s") (u "t")
    ++ (u "('T', current_timestamp, '{" ++ dquote ++ u "a" ++ dquote
          ++ u ": 1}')," ++ nl
        ++ u "('T', current_timestamp, '{}')," ++ nl
        ++ u "('T', current_timestamp, '{" ++ dquote ++ u "b" ++ dquote
          ++ u ": null}')")
    ++ nl.
Proof.
  apply (@build_insert_rows_join ascii_runtime (u "s") (u "t")
           {| title := u "T";
              data := [[(u "a", VInt 1)]; []; [(u "b", VNone)]] |}).
  discriminate.
Defined.

Lemma forallb_plain_printable (t : pystr) :
  forallb plain_char t = true -> forallb printable t = true.
Proof.
  induction t as [|c t IH]; simpl; [reflexivity|]. intros H.
  apply andb_prop in H as [Hc Ht]. now rewrite (plain_printable _ Hc), IH.
Qed.

(** X16. The JSON text of a record is printable ASCII throughout, whatever
    the keys and the cells: control characters (line breaks among them) and
    characters beyond ASCII only appear escaped. *)
Theorem json_dumps_printable {rt : PyRuntime} (obj : dict pyval) :
  forallb printable (json_dumps obj) = true.
Proof.
  unfold json_dumps. rewrite !forallb_app.
  apply andb_true_intro. split; [reflexivity|].
  apply andb_true_intro. split; [|reflexivity].
  apply forallb_join; [reflexivity|].
  apply Forall_map, Forall_forall. intros [k v] _. simpl fst. simpl snd.
  unfold json_string. rewrite !forallb_app, json_escape_printable.
  change (forallb printable dquote) with true.
  change (forallb printable (u ": ")) with true. cbn [andb].
  destruct v as [s | z | f |]; cbn [json_value].
  - unfold json_string. now rewrite !forallb_app, json_escape_printable.
  - apply forallb_plain_printable, int_repr_plain.
  - apply forallb_plain_printable, float_repr_plain.
  - reflexivity.
Qed.

Lemma printable_no_newline (t : pystr) :
  forallb printable t = true -> count_occ N.eq_dec t 10%N = 0.
Proof.
  intros H. apply count_occ_not_In. intros Hin.
  rewrite forallb_forall in H. specialize (H _ Hin). discriminate.
Qed.

Section Lines.
Context {rt : PyRuntime}.

Lemma insert_rows_lines (sheet : pystr) (count : Z) (data : list (dict pyval)) :
  ~ In 10%N sheet ->
  forall i, count_occ N.eq_dec (insert_rows sheet count i data) 10%N
            = length data.
Proof.
  intros Hsheet. apply (count_occ_not_In N.eq_dec) in Hsheet.
  induction data as [|obj data IH]; intros i; [reflexivity|].
  cbn [insert_rows length]. unfold insert_row.
  pose proof (printable_no_newline _ (json_dumps_printable obj)) as Hj.
  rewrite !count_occ_app, IH. unfold pystr, char in *. rewrite Hsheet, Hj.
  destruct (negb _); reflexivity.
Qed.

End Lines.

(** X17. When the schema, the table and the title hold no line break, the
    insert statement has three lines and then exactly one line per record,
    whatever the cells hold: line breaks in cells are escaped in the JSON
    text. *)
Theorem one_line_per_record {rt : PyRuntime} (schema table : pystr)
  (p : payload) :
  ~ In 10%N schema -> ~ In 10%N table -> ~ In 10%N (title p) ->
  count_occ N.eq_dec (build_insert_rows schema table p) 10%N
  = 3 + length (data p).
Proof.
  intros Hs Ht Hp. unfold build_insert_rows, insert_header.
  apply (count_occ_not_In N.eq_dec) in Hs, Ht.
  rewrite !count_occ_app, (@insert_rows_lines rt (title p) _ (data p) Hp).
  unfold pystr, char in *. rewrite Hs, Ht. reflexivity.
Qed.

Lemma one_line_per_record_witness :
  count_occ N.eq_dec
    (build_insert_rows (rt := ascii_runtime) (u "s") (u "t")
       {| title := u "T";
          data := [[(u "note", VStr (u "a" ++ nl ++ u "b" ++ nl))]; []] |})
    10%N
  = 5.
Proof.
  apply (@one_line_per_record ascii_runtime (u "s") (u "t")
           {| title := u "T";
              data := [[(u "note", VStr (u "a" ++ nl ++ u "b" ++ nl))]; []] |});
    simpl; intuition discriminate.
Defined.

(** ** LoadOrchestrator *)

Lemma run_statements_dry (w : world) (verbose : bool) (statements : list pystr) :
  run_statements w verbose true statements
  = (if verbose then map (fun s => Stdout (s ++ nl)) statements else [], None).
Proof.
  induction statements as [|s statements IH]; simpl.
  - now destruct verbose.
  - rewrite IH. now destruct verbose.
Qed.

(** X18. In a dry run no statement is executed, whatever the worksheet, the
    coercions and the answers of the collaborators. *)
Theorem dry_run_executes_nothing {rt : PyRuntime} (schema table : pystr)
  (w : world) (coercions : option coercion_spec) (verbose : bool)
  (stmt : pystr) :
  ~ In (Execute stmt) (fst (load_sheet schema table w coercions verbose true)).
Proof.
  unfold load_sheet.
  destruct (config_readable w); cbn [negb]; [|simpl; tauto].
  destruct (fetched w) as [ws|]; [|simpl; tauto].
  destruct (read_worksheet ws coercions) as [log [p|e]].
  - destruct (connects w); cbn [negb].
    + rewrite run_statements_dry. cbn [fst].
      rewrite in_app_iff, in_map_iff.
      intros [(x & Hx & _) | [Hc | Hin]]; [discriminate | discriminate|].
      rewrite in_app_iff in Hin. destruct Hin as [Hin | [Hin | []]];
        [|discriminate].
      destruct verbose; simpl in Hin; [|tauto].
      destruct Hin as [Hin | [Hin | []]]; discriminate.
    + cbn [fst]. rewrite in_map_iff. intros (x & Hx & _). discriminate.
  - cbn [fst]. rewrite in_map_iff. intros (x & Hx & _). discriminate.
Qed.

(** X19. A dry run still reads the configuration, reads the worksheet and
    opens the connection: when these succeed it writes the diagnostics of the
    coercions, connects, prints the two statements if asked to, closes the
    connection and returns, whether or not the warehouse would have accepted
    the statements. *)
Theorem dry_run_trace {rt : PyRuntime} (schema table : pystr) (w : world)
  (ws : worksheet) (coercions : option coercion_spec) (verbose : bool)
  (log : list pystr) (p : payload) :
  config_readable w = true ->
  fetched w = Some ws ->
  read_worksheet ws coercions = (log, Return p) ->
  connects w = true ->
  load_sheet schema table w coercions verbose true
  = (map Stderr log
     ++ Connect
        :: (if verbose
            then [Stdout (build_create_table schema table ++ nl);
                  Stdout (build_insert_rows schema table p ++ nl)]
            else [])
        ++ [Close],
     None).
Proof.
  intros Hc Hf Hr Hw. unfold load_sheet. rewrite Hc, Hf, Hr, Hw. simpl negb.
  cbv iota. rewrite run_statements_dry. now destruct verbose.
Qed.

Lemma dry_run_trace_witness :
  load_sheet (rt := ascii_runtime) (u "s") (u "t")
    {| config_readable := true;
       fetched := Some {| ws_title := u "T";
                          ws_rows := [[u "Kind"]; [u "x"]] |};
       connects := true;
       executes := fun _ => false |}
    (Some [(u "kind", Some (u "money"))]) false true
  = ([Stderr (u "Unknown coercion target 'money'" ++ nl); Connect; Close],
     None).
Proof.
  apply (@dry_run_trace ascii_runtime (u "s") (u "t")
           {| config_readable := true;
              fetched := Some {| ws_title := u "T";
                                 ws_rows := [[u "Kind"]; [u "x"]] |};
              connects := true;
              executes := fun _ => false |}
           {| ws_title := u "T"; ws_rows := [[u "Kind"]; [u "x"]] |}
           (Some [(u "kind", Some (u "money"))]) false
           [u "Unknown coercion target 'money'" ++ nl]
           {| title := u "T"; data := [[(u "kind", VStr (u "x"))]] |});
    reflexivity.
Defined.

(** X20. When reading the worksheet raises (no rows, a cell that a coercion
    cannot parse, an empty date cell), [load_sheet] ends with that exception
    before the connection is opened: nothing is printed on the output,
    nothing is executed, the table is not touched. *)
Theorem read_failure_touches_nothing {rt : PyRuntime} (schema table : pystr)
  (w : world) (ws : worksheet) (coercions : option coercion_spec)
  (verbose dry_run : bool) (log : list pystr) (e : exn) :
  config_readable w = true ->
  fetched w = Some ws ->
  read_worksheet ws coercions = (log, Raise e) ->
  load_sheet schema table w coercions verbose dry_run
  = (map Stderr log, Some (ScriptError e)).
Proof.
  intros Hc Hf Hr. unfold load_sheet. now rewrite Hc, Hf, Hr.
Qed.

Lemma read_failure_touches_nothing_witness :
  load_sheet (rt := ascii_runtime) (u "s") (u "t")
    {| config_readable := true;
       fetched := Some {| ws_title := u "T";
                          ws_rows := [[u "Amount"]; [u "12a"]] |};
       connects := true;
       executes := fun _ => true |}
    (Some [(u "amount", Some (u "int"))]) true false
  = ([], Some (ScriptError ValueError)).
Proof.
  apply (@read_failure_touches_nothing ascii_runtime (u "s") (u "t")
           {| config_readable := true;
              fetched := Some {| ws_title := u "T";
                                 ws_rows := [[u "Amount"]; [u "12a"]] |};
              connects := true;
              executes := fun _ => true |}
           {| ws_title := u "T"; ws_rows := [[u "Amount"]; [u "12a"]] |}
           (Some [(u "amount", Some (u "int"))]) true false [] ValueError);
    reflexivity.
Defined.

(** X21. In a run that is not dry and whose statements the warehouse
    accepts, the create statement is executed first and the insert statement
    second, each printed just before it is executed when the run is verbose;
    then the connection is closed and the run returns. *)
Theorem load_sheet_create_then_insert {rt : PyRuntime} (schema table : pystr)
  (w : world) (ws : worksheet) (coercions : option coercion_spec)
  (verbose : bool) (log : list pystr) (p : payload) :
  config_readable w = true ->
  fetched w = Some ws ->
  read_worksheet ws coercions = (log, Return p) ->
  connects w = true ->
  executes w (build_create_table schema table) = true ->
  executes w (build_insert_rows schema table p) = true ->
  load_sheet schema table w coercions verbose false
  = (map Stderr log
     ++ Connect
        :: (if verbose
            then [Stdout (build_create_table schema table ++ nl);
                  Execute (build_create_table schema table);
                  Stdout (build_insert_rows schema table p ++ nl);
                  Execute (build_insert_rows schema table p)]
            else [Execute (build_create_table schema table);
                  Execute (build_insert_rows schema table p)])
        ++ [Close],
     None).
Proof.
  intros Hc Hf Hr Hw H1 H2. unfold load_sheet. rewrite Hc, Hf, Hr, Hw.
  simpl negb. cbv iota. cbn [run_statements negb]. rewrite H1, H2.
  now destruct verbose.
Qed.

Lemma load_sheet_create_then_insert_witness :
  load_sheet (rt := ascii_runtime) (u "s") (u "t")
    {| config_readable := true;
       fetched := Some {| ws_title := u "T"; ws_rows := [[u "Kind"]] |};
       connects := true;
       executes := fun _ => true |}
    None false false
  = ([Connect;
      Execute (build_create_table (u "s") (u "t"));
      Execute (insert_header (u "s") (u "t"));
      Close],
     None).
Proof.
  refine (eq_trans
    (@load_sheet_create_then_insert ascii_runtime (u "s") (u "t")
       {| config_readable := true;
          fetched := Some {| ws_title := u "T"; ws_rows := [[u "Kind"]] |};
          connects := true;
          executes := fun _ => true |}
       {| ws_title := u "T"; ws_rows := [[u "Kind"]] |}
       None false [] {| title := u "T"; data := [] |} _ _ _ _ _ _) _);
    reflexivity.
Defined.

(** X22. The two statements are not one transaction of the script: when the
    warehouse accepts the create statement and rejects the insert statement,
    the table has been replaced before the run fails; when it rejects the
    create statement, the insert statement is not attempted.  Either way the
    connection is closed. *)
Theorem insert_failure_after_create {rt : PyRuntime} (schema table : pystr)
  (w : world) (ws : worksheet) (coercions : option coercion_spec)
  (log : list pystr) (p : payload) :
  config_readable w = true ->
  fetched w = Some ws ->
  read_worksheet ws coercions = (log, Return p) ->
  connects w = true ->
  (executes w (build_create_table schema table) = true ->
   executes w (build_insert_rows schema table p) = false ->
   load_sheet schema table w coercions false false
   = (map Stderr log
      ++ [Connect;
          Execute (build_create_table schema table);
          Execute (build_insert_rows schema table p);
          Close],
      Some WarehouseError))
  /\ (executes w (build_create_table schema table) = false ->
      load_sheet schema table w coercions false false
      = (map Stderr log
         ++ [Connect; Execute (build_create_table schema table); Close],
         Some WarehouseError)).
Proof.
  intros Hc Hf Hr Hw. unfold load_sheet. rewrite Hc, Hf, Hr, Hw.
  simpl negb. cbv iota. cbn [run_statements negb]. split.
  - intros H1 H2. now rewrite H1, H2.
  - intros H1. now rewrite H1.
Qed.

Lemma insert_failure_after_create_witness :
  load_sheet (rt := ascii_runtime) (u "s") (u "t")
    {| config_readable := true;
       fetched := Some {| ws_title := u "T"; ws_rows := [[u "Kind"]] |};
       connects := true;
       executes := fun s => str_eqb s (build_create_table (u "s") (u "t")) |}
    None false false
  = ([Connect;
      Execute (build_create_table (u "s") (u "t"));
      Execute (insert_header (u "s") (u "t"));
      Close],
     Some WarehouseError).
Proof.
  refine (eq_trans
    (proj1
       (@insert_failure_after_create ascii_runtime (u "s") (u "t")
          {| config_readable := true;
             fetched := Some {| ws_title := u "T"; ws_rows := [[u "Kind"]] |};
             connects := true;
             executes :=
               fun s => str_eqb s (build_create_table (u "s") (u "t")) |}
          {| ws_title := u "T"; ws_rows := [[u "Kind"]] |}
          None [] {| title := u "T"; data := [] |} _ _ _ _) _ _) _);
    reflexivity.
Defined.

(** ** JSON strings can be read back *)

Lemma unhex_hex_digit (m : N) : (m < 16)%N -> unhex (hex_digit m) = Some m.
Proof.
  intros H. unfold hex_digit, unhex. destruct (N.ltb_spec m 10).
  - assert (E1 : (48 <=? 48 + m)%N = true) by (apply N.leb_le; lia).
    assert (E2 : (48 + m <=? 57)%N = true) by (apply N.leb_le; lia).
    rewrite E1, E2. cbn [andb]. f_equal. lia.
  - assert (E1 : (87 + m <=? 57)%N = false) by (apply N.leb_gt; lia).
    assert (E2 : (97 <=? 87 + m)%N = true) by (apply N.leb_le; lia).
    assert (E3 : (87 + m <=? 102)%N = true) by (apply N.leb_le; lia).
    rewrite E1, E2, E3, andb_false_r. cbn [andb]. f_equal. lia.
Qed.

Lemma nibbles_value (n : N) :
  (n < 65536)%N ->
  (4096 * (N.shiftr n 12 mod 16) + 256 * (N.shiftr n 8 mod 16)
   + 16 * (N.shiftr n 4 mod 16) + n mod 16 = n)%N.
Proof.
  intros H. rewrite !N.shiftr_div_pow2.
  change (2 ^ 12)%N with 4096%N. change (2 ^ 8)%N with 256%N.
  change (2 ^ 4)%N with 16%N.
  zify. Z.to_euclidean_division_equations. lia.
Qed.

Lemma unhex4_nibbles (n : N) :
  (n < 65536)%N ->
  unhex4 (hex_digit (N.shiftr n 12 mod 16)) (hex_digit (N.shiftr n 8 mod 16))
    (hex_digit (N.shiftr n 4 mod 16)) (hex_digit (n mod 16))
  = Some n.
Proof.
  intros H. unfold unhex4.
  rewrite !unhex_hex_digit by (apply N.mod_lt; discriminate).
  f_equal. now apply nibbles_value.
Qed.

Lemma lor_high (a y : N) :
  (y < 1024)%N -> N.lor (a * 1024) y = (a * 1024 + y)%N.
Proof.
  intros H.
  assert (E : N.land (a * 1024) y = 0%N).
  { apply N.bits_inj. intros i. rewrite N.land_spec, N.bits_0.
    change 1024%N with (2 ^ 10)%N. rewrite <- N.shiftl_mul_pow2.
    destruct (N.lt_ge_cases i 10) as [Hi | Hi].
    - now rewrite N.shiftl_spec_low.
    - replace y with (y mod 2 ^ 10)%N by (apply N.mod_small; exact H).
      rewrite N.mod_pow2_bits_high by exact Hi. apply andb_false_r. }
  rewrite (N.add_nocarry_lxor _ _ E). symmetry. now apply N.lxor_lor.
Qed.

(** The two halves of the escape of a character beyond the basic plane. *)
Lemma surrogate_halves (n : N) :
  (n < 1048576)%N ->
  N.lor 55296 (N.land (N.shiftr n 10) 1023) = (55296 + n / 1024)%N
  /\ N.lor 56320 (N.land n 1023) = (56320 + n mod 1024)%N.
Proof.
  intros H.
  assert (Hd : (n / 1024 < 1024)%N)
    by (apply N.Div0.div_lt_upper_bound; lia).
  assert (Hm : (n mod 1024 < 1024)%N) by (apply N.mod_lt; discriminate).
  change 1023%N with (N.ones 10). rewrite !N.land_ones, N.shiftr_div_pow2.
  change (2 ^ 10)%N with 1024%N.
  rewrite (N.mod_small (n / 1024) 1024 Hd).
  change 55296%N with (54 * 1024)%N. change 56320%N with (55 * 1024)%N.
  split; now apply lor_high.
Qed.

Lemma json_first_char_u (h1 h2 h3 h4 : char) (t3 : pystr) :
  json_first_char (92%N :: 117%N :: h1 :: h2 :: h3 :: h4 :: t3)
  = match unhex4 h1 h2 h3 h4 with
    | None => None
    | Some n =>
        if ((55296 <=? n) && (n <? 56320))%N then
          match t3 with
          | b :: x :: g1 :: g2 :: g3 :: g4 :: t4 =>
              match unhex4 g1 g2 g3 g4 with
              | Some m =>
                  if ((b =? 92) && (x =? 117)
                      && (56320 <=? m) && (m <? 57344))%N
                  then Some ((65536 + (n - 55296) * 1024 + (m - 56320))%N, t4)
                  else Some (n, t3)
              | None => Some (n, t3)
              end
          | _ => Some (n, t3)
          end
        else Some (n, t3)
    end.
Proof. reflexivity. Qed.

(** The first character read from the escape of a character, with any text
    behind it, is the character, and the text behind is what is left. *)
Lemma json_first_char_escape (c : char) (rest : pystr) :
  plain_code_point c ->
  json_first_char (escape_char c ++ rest) = Some (c, rest).
Proof.
  intros [Hmax Hhigh]. unfold escape_char.
  destruct (N.eqb_spec c 92) as [-> | H92]; [reflexivity|].
  destruct (N.eqb_spec c 34) as [-> | H34]; [reflexivity|].
  destruct ((32 <=? c) && (c <=? 126))%N.
  { simpl. apply N.eqb_neq in H92. now rewrite H92. }
  destruct (N.eqb_spec c 8) as [-> | _]; [reflexivity|].
  destruct (N.eqb_spec c 12) as [-> | _]; [reflexivity|].
  destruct (N.eqb_spec c 10) as [-> | _]; [reflexivity|].
  destruct (N.eqb_spec c 13) as [-> | _]; [reflexivity|].
  destruct (N.eqb_spec c 9) as [-> | _]; [reflexivity|].
  destruct (N.ltb_spec c 65536) as [Hlow | Hbig].
  - unfold u_escape. cbn [app]. rewrite json_first_char_u.
    rewrite (unhex4_nibbles Hlow).
    destruct ((55296 <=? c) && (c <? 56320))%N eqn:E; [|reflexivity].
    apply andb_prop in E as [E1 E2]. apply N.leb_le in E1.
    apply N.ltb_lt in E2. lia.
  - assert (Hn : (c - 65536 < 1048576)%N) by lia.
    destruct (surrogate_halves Hn) as [-> ->].
    assert (Hd : ((c - 65536) / 1024 < 1024)%N)
      by (apply N.Div0.div_lt_upper_bound; lia).
    assert (Hm : ((c - 65536) mod 1024 < 1024)%N)
      by (apply N.mod_lt; discriminate).
    pose proof (N.div_mod (c - 65536) 1024 ltac:(discriminate)) as Hqr.
    revert Hd Hm Hqr.
    generalize ((c - 65536) / 1024)%N as q, ((c - 65536) mod 1024)%N as r.
    intros q r Hd Hm Hqr.
    unfold u_escape. cbn [app]. rewrite json_first_char_u.
    rewrite unhex4_nibbles by lia.
    assert (E1 : ((55296 <=? 55296 + q) && (55296 + q <? 56320))%N = true).
    { apply andb_true_intro. split; [apply N.leb_le | apply N.ltb_lt]; lia. }
    rewrite E1, unhex4_nibbles by lia.
    assert (E2 : ((92 =? 92) && (117 =? 117)
                  && (56320 <=? 56320 + r) && (56320 + r <? 57344))%N = true).
    { repeat (apply andb_true_intro; split); try reflexivity;
        [apply N.leb_le | apply N.ltb_lt]; lia. }
    rewrite E2. f_equal. apply (f_equal (fun x => (x, rest))).
    clear E1 E2. lia.
Qed.

Lemma json_escape_inj (s : pystr) :
  Forall plain_code_point s ->
  forall s', Forall plain_code_point s' ->
             json_escape s = json_escape s' -> s = s'.
Proof.
  unfold json_escape.
  induction 1 as [|c s Hc Hs IH]; intros s' Hs' E;
    destruct Hs' as [|c' s' Hc' Hs']; simpl in E.
  - reflexivity.
  - apply (f_equal json_first_char) in E.
    rewrite (json_first_char_escape _ Hc') in E. discriminate.
  - apply (f_equal json_first_char) in E.
    rewrite (json_first_char_escape _ Hc) in E. discriminate.
  - apply (f_equal json_first_char) in E.
    rewrite (json_first_char_escape _ Hc), (json_first_char_escape _ Hc') in E.
    injection E as -> E. f_equal. now apply IH.
Qed.

(** X23. Texts that differ are escaped to JSON strings that differ, as long
    as they hold no high surrogate: the escaping loses nothing, each
    character can be read back from its escape.  A high surrogate followed
    by a low one is escaped like the one character beyond the basic plane
    that the pair encodes. *)
Theorem json_escape_injective (s s' : pystr) :
  Forall plain_code_point s -> Forall plain_code_point s' ->
  s <> s' ->
  json_escape s <> json_escape s'
  /\ json_escape [55296%N; 56320%N] = json_escape [65536%N].
Proof.
  intros Hs Hs' Hne. split; [|reflexivity].
  intros E. apply Hne. now apply json_escape_inj.
Qed.

Lemma json_escape_injective_witness :
  json_escape (u "a" ++ nl) <> json_escape (u "a" ++ bslash ++ u "n").
Proof.
  apply (@json_escape_injective (u "a" ++ nl) (u "a" ++ bslash ++ u "n")).
  - repeat constructor; simpl; lia.
  - repeat constructor; simpl; lia.
  - discriminate.
Defined.
